(** * The tempest stress driver (tempest/stress/driver.py)

    A shallow embedding of the workload driver: the remote channel
    [do_ssh], the log monitor ([_get_compute_nodes], [_error_in_logs]),
    the worker registry with [terminate_all_processes], and the polling
    loop and report of [stress_openstack].

    Everything outside the driver (the ssh channel, the worker processes
    and their shared dictionaries, the actions' [setUp]) is an
    [environment] of oracles; the driver threads a [world] through a
    state-and-exception monad.  The conventions of the model:

    - [now] is an integer clock that only [time.sleep] advances, by
      exactly its argument; the wall clock that [time.time()] reads when
      the time at which the polling loop is left is at stake also counts
      what every blocking operation takes (section The wall clock);
    - the workers run concurrently: at every blocking operation of the
      driver ([time.sleep], a remote command, reading a shared statistic,
      [join]) the environment may change the state and the statistic of
      every worker;
    - [join()] returns: a worker that is waited for does exit;
    - the SIGCHLD handler runs at moments the driver does not choose; what
      it does to the workers is part of the environment's moves, and its
      own events are not recorded;
    - the [while True] loop takes fuel, and [OutOfFuel] says that the loop
      is still running when the fuel is spent. *)

From Stdlib Require Import ZArith Lia String Ascii Bool.
From stdpp Require Import base list.

Local Open Scope string_scope.
Local Open Scope list_scope.
Local Open Scope Z_scope.

(** ** Python values the driver handles *)

(** Exceptions that occur in the driver.  [SSHExecCommandFailed] is the only
    one [do_ssh] catches; [OtherException] stands for any other class. *)
Inductive exn : Type :=
| SSHExecCommandFailed
| IndexError
| IOError
| OtherException (name : string).

(** A pure computation that may raise. *)
Inductive result (A : Type) : Type :=
| Ok (a : A)
| Err (e : exn).
Arguments Ok {A} a.
Arguments Err {A} e.

(** Truth value of a configuration entry or of a command's output:
    [None] and the empty string are false. *)
Definition truthy (v : option string) : bool :=
  match v with
  | Some (String _ _) => true
  | _ => false
  end.

(** [len(s)] *)
Definition len (s : string) : Z := Z.of_nat (String.length s).

Definition newline : ascii := ascii_of_nat 10.
Definition dquote : string := String (ascii_of_nat 34) EmptyString.

(** The characters [str.split()] treats as separators. *)
Definition is_space (c : ascii) : bool :=
  let n := nat_of_ascii c in
  (Nat.eqb n 32 || Nat.eqb n 9 || Nat.eqb n 10 || Nat.eqb n 11 || Nat.eqb n 12 || Nat.eqb n 13)%bool.

(** [s.split(sep)] for a one-character separator: never empty, keeps
    empty fields. *)
Fixpoint split_on (sep : ascii) (s : string) : list string :=
  match s with
  | EmptyString => [EmptyString]
  | String c s' =>
      if Ascii.eqb c sep then EmptyString :: split_on sep s'
      else match split_on sep s' with
           | [] => [String c EmptyString]
           | w :: ws => String c w :: ws
           end
  end.

(** [s.split()]: maximal runs of non-space characters.  [cur] is the word
    being read, in reverse. *)
Fixpoint split_ws_from (cur : list ascii) (s : string) : list string :=
  let flush (rest : list string) :=
    match cur with
    | [] => rest
    | _ => string_of_list_ascii (rev cur) :: rest
    end in
  match s with
  | EmptyString => flush []
  | String c s' =>
      if is_space c then flush (split_ws_from [] s')
      else split_ws_from (c :: cur) s'
  end.

Definition split_ws (s : string) : list string := split_ws_from [] s.

(** ** Configuration, workers, events *)

(** [admin_manager.config.stress] *)
Record config : Type := Config {
  target_ssh_user : option string;
  target_private_key_path : option string;
  target_logfiles : option string;
  target_controller : string;
  log_check_interval : Z
}.

(** State of a [multiprocessing.Process] that has been started. *)
Inductive handle : Type :=
| Alive      (* running *)
| Exited     (* no longer running, not yet joined *)
| Joined.    (* joined by the driver *)

(** The shared dictionary [{'runs': _, 'fails': _}]. *)
Record statistic : Type := Statistic { runs : Z; fails : Z }.

(** An entry of the module-level list [processes]. *)
Record process : Type := Process {
  process_ : handle;          (* process['process'] *)
  p_number : Z;               (* process['p_number'] *)
  action : string;            (* process['action'] *)
  statistic_ : statistic      (* process['statistic'] *)
}.

(** One element of a test description. *)
Record test : Type := Test {
  test_action : string;               (* test['action'] *)
  threads : Z;                        (* test.get('threads', 1) *)
  use_admin : bool;                   (* test.get('use_admin', False) *)
  use_isolated_tenants : bool         (* test.get('use_isolated_tenants', False) *)
}.

(** What the driver does to the outside, in order. *)
Inductive event : Type :=
| EvExec (host command : string)          (* ssh_client.exec_command(command) *)
| EvLogError (node errors : string)       (* logger.error('%s: %s' % (node, errors)) *)
| EvCreateIdentity                        (* create_tenant, create_user *)
| EvSetUp (action : string)               (* test_run.setUp(...) *)
| EvStart (i : nat)                       (* p.start() *)
| EvSignal                                (* signal.signal(SIGCHLD, sigchld_handler) *)
| EvSleep (d : Z)                         (* time.sleep(d) *)
| EvTerminate (i : nat)                   (* process['process'].terminate() *)
| EvJoin (i : nat)                        (* process['process'].join() *)
| EvInfoStatistics                        (* "Statistics (per process):" *)
| EvInfoProcess (p_number : Z) (action : string) (runs fails : Z)
| EvInfoSummary                           (* "Summary:" *)
| EvInfoRun (runs fails : Z)              (* "Run %d actions (%d failed)" *)
| EvInfoCleaningUp                        (* "cleaning up" *)
| EvCleanup.                              (* cleanup.cleanup(logger) *)

(** Answer of the remote side to [exec_command]. *)
Inductive reply : Type :=
| Output (out : string)
| Failure (e : exn).

(** Everything the driver does not control.  Each oracle is indexed by the
    [epoch]: the number of blocking interactions the driver has made so far.
    - [exec_command k host command]: what the ssh channel answers;
    - [worker_step k i (h, s)]: handle and shared statistic of the worker at
      registry position [i] after the interaction, given what they were
      before (the worker runs concurrently with the driver, and with
      [stop_on_error] the SIGCHLD handler may terminate and join it);
    - [terminate_raises k i]: whether [terminate()] raises;
    - [setUp_raises k a]: whether the action's [setUp] raises. *)
Record environment : Type := Environment {
  exec_command : nat -> string -> string -> reply;
  worker_step : nat -> nat -> handle * statistic -> handle * statistic;
  terminate_raises : nat -> nat -> bool;
  setUp_raises : nat -> string -> bool
}.

(** The driver's view of the world: its clock reading, the registry, the
    effects so far, and the epoch. *)
Record world : Type := World {
  now : Z;
  processes : list process;
  events : list event;
  epoch : nat
}.

(** ** The monad of the driver *)

Inductive outcome (A : Type) : Type :=
| Return (a : A) (w : world)
| Raise (e : exn) (w : world)
| OutOfFuel.
Arguments Return {A} a w.
Arguments Raise {A} e w.
Arguments OutOfFuel {A}.

Definition M (A : Type) : Type := world -> outcome A.

Definition ret {A : Type} (a : A) : M A := fun w => Return a w.

Definition bind {A B : Type} (m : M A) (k : A -> M B) : M B :=
  fun w =>
    match m w with
    | Return a w' => k a w'
    | Raise e w' => Raise e w'
    | OutOfFuel => OutOfFuel
    end.

Definition raise {A : Type} (e : exn) : M A := fun w => Raise e w.

Declare Scope driver_scope.
Delimit Scope driver_scope with driver.
Notation "x <- m ;; k" := (bind m (fun x => k))
  (at level 100, m at next level, right associativity) : driver_scope.
Notation "m ;; k" := (bind m (fun _ => k))
  (at level 100, right associativity) : driver_scope.
Local Open Scope driver_scope.

(** [for x in xs: body], where [body] returns [true] to [break]. *)
Fixpoint for_each {A : Type} (xs : list A) (body : A -> M bool) : M unit :=
  match xs with
  | [] => ret tt
  | x :: xs' => stop <- body x ;; if stop then ret tt else for_each xs' body
  end.

(** A [for] loop that updates local variables [S]. *)
Fixpoint for_fold {A S : Type} (xs : list A) (body : A -> S -> M S) (s : S) : M S :=
  match xs with
  | [] => ret s
  | x :: xs' => s' <- body x s ;; for_fold xs' body s'
  end.

Definition emit (e : event) : M unit :=
  fun w => Return tt (World (now w) (processes w) (events w ++ [e]) (epoch w)).

Definition get_processes : M (list process) := fun w => Return (processes w) w.

(** [time.time()] *)
Definition time_time : M Z := fun w => Return (now w) w.

Definition is_alive (p : process) : bool :=
  match process_ p with
  | Alive => true
  | _ => false
  end.

(** ** The driver *)

Section Driver.

Variable cfg : config.
Variable env : environment.

(** *** Interaction with the environment *)

Definition run_worker (k i : nat) (p : process) : process :=
  let r := worker_step env k i (process_ p, statistic_ p) in
  Process (fst r) (p_number p) (action p) (snd r).

(** The registry after the workers have run during interaction [k]. *)
Definition progress (k : nat) (ps : list process) : list process :=
  imap (run_worker k) ps.

(** [time.sleep(d)]: a negative argument raises; otherwise the clock
    advances by [d] while the workers run. *)
Definition time_sleep (d : Z) : M unit :=
  fun w =>
    if d <? 0 then Raise IOError w
    else Return tt (World (now w + d) (progress (epoch w) (processes w))
                          (events w ++ [EvSleep d]) (S (epoch w))).

(** [ssh_client.exec_command(command)] on [host] *)
Definition ssh_exec_command (host command : string) : M reply :=
  fun w =>
    Return (exec_command env (epoch w) host command)
           (World (now w) (progress (epoch w) (processes w))
                  (events w ++ [EvExec host command]) (S (epoch w))).

(** [process['statistic'][key]] of registry entry [i]: a round trip to the
    manager process holding the dictionary. *)
Definition shared_get (i : nat) (key : statistic -> Z) : M Z :=
  fun w =>
    let ps := progress (epoch w) (processes w) in
    let w' := World (now w) ps (events w) (S (epoch w)) in
    match ps !! i with
    | Some p => Return (key (statistic_ p)) w'
    | None => Raise IndexError w'
    end.

(** Registry entry [i] as the [for] loop yields it. *)
Definition registry_get (i : nat) : M process :=
  fun w =>
    match processes w !! i with
    | Some p => Return p w
    | None => Raise IndexError w
    end.

Definition set_handle (h : handle) (p : process) : process :=
  Process h (p_number p) (action p) (statistic_ p).

(** [process['process'].terminate()] *)
Definition process_terminate (i : nat) : M unit :=
  fun w =>
    let w' := World (now w) (processes w) (events w ++ [EvTerminate i]) (S (epoch w)) in
    if terminate_raises env (epoch w) i then Raise (OtherException "OSError") w'
    else Return tt w'.

(** [process['process'].join()]: returns once the worker has exited; the
    other workers run meanwhile. *)
Definition process_join (i : nat) : M unit :=
  fun w =>
    Return tt (World (now w)
                     (alter (set_handle Joined) i (progress (epoch w) (processes w)))
                     (events w ++ [EvJoin i]) (S (epoch w))).

(** [try: m except Exception: pass] *)
Definition try_pass (m : M unit) : M unit :=
  fun w =>
    match m w with
    | Raise _ w' => Return tt w'
    | o => o
    end.

Definition lift {A : Type} (r : result A) : M A :=
  fun w =>
    match r with
    | Ok a => Return a w
    | Err e => Raise e w
    end.

(** *** do_ssh *)

Definition do_ssh (command host : string) : M (option string) :=
  let username := target_ssh_user cfg in
  let key_filename := target_private_key_path cfg in
  if negb (truthy username && truthy key_filename) then ret None
  else
    r <- ssh_exec_command host command ;;
    match r with
    | Output out => ret (Some out)
    | Failure SSHExecCommandFailed => ret None
    | Failure e => raise e
    end.

(** *** _get_compute_nodes *)

(** The loop over the lines of the listing; [nodes] is the list built so
    far. *)
Fixpoint active_nodes (lines : list string) (nodes : list string) : result (list string) :=
  match lines with
  | [] => Ok nodes
  | line :: rest =>
      let words := split_ws line in
      if 0 <? Z.of_nat (length words) then
        match words !! 4%nat with
        | None => Err IndexError
        | Some status =>
            if String.eqb status ":-)" then
              match words !! 1%nat with
              | None => Err IndexError
              | Some name => active_nodes rest (nodes ++ [name])
              end
            else active_nodes rest nodes
        end
      else active_nodes rest nodes
  end.

Definition service_list_command : string :=
  "nova-manage service list | grep ^nova-compute".

Definition _get_compute_nodes (controller : string) : M (list string) :=
  let cmd := service_list_command in
  output <- do_ssh cmd controller ;;
  match output with
  | Some (String c s) => lift (active_nodes (split_on newline (String c s)) [])
  | _ => ret []
  end.

(** *** _error_in_logs *)

Definition grep_command (logfiles : string) : string :=
  ("egrep " ++ dquote ++ "ERROR|TRACE" ++ dquote ++ " " ++ logfiles)%string.

Fixpoint error_scan (grep : string) (nodes : list string) : M (option string) :=
  match nodes with
  | [] => ret None
  | node :: rest =>
      errors <- do_ssh grep node ;;
      match errors with
      | Some (String c s) =>
          if 0 <? len (String c s) then
            emit (EvLogError node (String c s)) ;; ret errors
          else error_scan grep rest
      | _ => ret None
      end
  end.

Definition _error_in_logs (logfiles : string) (nodes : list string) : M (option string) :=
  error_scan (grep_command logfiles) nodes.

(** *** terminate_all_processes *)

(** Lines 110-115: the loop body, for the process at position [i]. *)
Definition terminate_and_join (i : nat) : M bool :=
  p <- registry_get i ;;
  (if is_alive p then try_pass (process_terminate i) else ret tt) ;;
  process_join i ;;
  ret false.

Definition terminate_all_processes : M unit :=
  ps <- get_processes ;;
  for_each (seq 0 (length ps)) terminate_and_join.

(** Lines 98-102: the handler of SIGCHLD, installed under
    [stop_on_error]. *)
Definition sigchld_handler : M unit := terminate_all_processes.

(** *** stress_openstack *)

(** ['%s' % v] *)
Definition str (v : option string) : string :=
  match v with
  | Some s => s
  | None => "None"
  end.

(** [xrange(n)] *)
Definition xrange (n : Z) : list Z := map Z.of_nat (seq 0 (Z.to_nat n)).

(** [test_run.setUp] with the keyword arguments of the test *)
Definition setUp (a : string) : M unit :=
  fun w =>
    let w' := World (now w) (processes w) (events w ++ [EvSetUp a]) (S (epoch w)) in
    if setUp_raises env (epoch w) a then Raise (OtherException "setUp") w'
    else Return tt w'.

(** [processes.append(process)] followed by [p.start()]; the position of
    the new entry is returned. *)
Definition append_and_start (p : process) : M nat :=
  fun w =>
    let i := length (processes w) in
    Return i (World (now w) (processes w ++ [p]) (events w ++ [EvStart i]) (epoch w)).

(** Lines 135-172: one replica of a test. *)
Definition spawn (t : test) (number : Z) : M unit :=
  (if use_isolated_tenants t then emit EvCreateIdentity else ret tt) ;;
  setUp (test_action t) ;;
  append_and_start (Process Alive number (test_action t) (Statistic 0 0)) ;;
  ret tt.

(** Lines 129-172. *)
Definition spawn_all (tests : list test) : M unit :=
  for_each tests (fun t =>
    for_each (xrange (threads t)) (fun number => spawn t number ;; ret false) ;;
    ret false).

(** Lines 195-197: the loop over the shared statistics under
    [stop_on_error]; its [break] leaves this [for] loop. *)
Definition check_fail (i : nat) : M bool :=
  f <- shared_get i fails ;;
  ret (0 <? f).

Definition check_fails : M unit :=
  ps <- get_processes ;;
  for_each (seq 0 (length ps)) check_fail.

(** Lines 179-191: the test at the head of the [while] loop.  [None] is
    [break]; otherwise the value of [remaining]. *)
Definition loop_head (end_time : Z) (max_runs : option Z) : M (option Z) :=
  match max_runs with
  | None =>
      t <- time_time ;;
      let remaining := end_time - t in
      if remaining <=? 0 then ret None else ret (Some remaining)
  | Some _ =>
      let remaining := log_check_interval cfg in
      ps <- get_processes ;;
      let all_proc_term := negb (existsb is_alive ps) in
      if all_proc_term then ret None else ret (Some remaining)
  end.

(** Lines 193-204: the rest of an iteration.  The result is [true] when
    the log scan found errors ([had_errors = True; break]) and [false]
    when the loop goes round again. *)
Definition loop_body (remaining : Z) (stop_on_error : bool) (computes : list string) : M bool :=
  let logfiles := target_logfiles cfg in
  time_sleep (Z.min remaining (log_check_interval cfg)) ;;
  (if stop_on_error then check_fails else ret tt) ;;
  if negb (truthy logfiles) then ret false
  else
    errors <- _error_in_logs (str logfiles) computes ;;
    ret (truthy errors).

(** Lines 177-204: the [while True] loop; the result is [had_errors] when
    the loop is left. *)
Fixpoint polling_loop (fuel : nat) (end_time : Z) (max_runs : option Z)
    (stop_on_error : bool) (computes : list string) : M bool :=
  match fuel with
  | O => fun _ => OutOfFuel
  | S fuel' =>
      head <- loop_head end_time max_runs ;;
      match head with
      | None => ret false
      | Some remaining =>
          found <- loop_body remaining stop_on_error computes ;;
          if found then ret true
          else polling_loop fuel' end_time max_runs stop_on_error computes
      end
  end.

(** The local variables of lines 208-216. *)
Record totals : Type := Totals {
  had_errors : bool;
  sum_runs : Z;
  sum_fails : Z
}.

(** Lines 212-221: one iteration of the statistics loop. *)
Definition report_process (i : nat) (t : totals) : M totals :=
  f <- shared_get i fails ;;
  let had := if 0 <? f then true else had_errors t in
  r1 <- shared_get i runs ;;
  f1 <- shared_get i fails ;;
  p <- registry_get i ;;
  r2 <- shared_get i runs ;;
  f2 <- shared_get i fails ;;
  emit (EvInfoProcess (p_number p) (action p) r2 f2) ;;
  ret (Totals had (sum_runs t + r1) (sum_fails t + f1)).

(** What a run returns, with the local variables as they stand at the
    [return]. *)
Record run_report : Type := RunReport {
  exit_status : Z;
  final : totals
}.

(** Lines 206-232, entered with the loop's [had_errors]. *)
Definition report (had : bool) : M run_report :=
  terminate_all_processes ;;
  emit EvInfoStatistics ;;
  ps <- get_processes ;;
  t <- for_fold (seq 0 (length ps)) report_process (Totals had 0 0) ;;
  emit EvInfoSummary ;;
  emit (EvInfoRun (sum_runs t) (sum_fails t)) ;;
  (if negb (had_errors t) then emit EvInfoCleaningUp ;; emit EvCleanup else ret tt) ;;
  if had_errors t then ret (RunReport 1 t) else ret (RunReport 0 t).

(** Lines 122-128: the nodes whose logs are watched, with their logs
    removed. *)
Definition prepare_logs : M (list string) :=
  let logfiles := target_logfiles cfg in
  if truthy logfiles then
    computes <- _get_compute_nodes (target_controller cfg) ;;
    for_each computes (fun node => do_ssh ("rm -f " ++ str logfiles)%string node ;; ret false) ;;
    ret computes
  else ret [].

Definition stress_openstack (fuel : nat) (tests : list test) (duration : Z)
    (max_runs : option Z) (stop_on_error : bool) : M run_report :=
  computes <- prepare_logs ;;
  spawn_all tests ;;
  (if stop_on_error then emit EvSignal else ret tt) ;;
  t <- time_time ;;
  let end_time := t + duration in
  had <- polling_loop fuel end_time max_runs stop_on_error computes ;;
  report had.

End Driver.

(** ** The wall clock

    [now] adds up the time the driver has asked to sleep.  The clock that
    [time.time()] reads moves as well while the driver is blocked in any
    other operation, and a sleep can last longer than asked.  [latency k]
    is the time the [k]-th blocking operation of the driver takes beyond
    what it asked to sleep: the whole of a remote command, of a read of a
    shared statistic, of a [terminate()] or a [join()], the lateness of a
    [time.sleep].  The operations are counted by [epoch]. *)

Fixpoint elapsed (latency : nat -> Z) (k : nat) : Z :=
  match k with
  | O => 0
  | S k' => elapsed latency k' + latency k'
  end.

(** The reading of the wall clock in [w]. *)
Definition wall (latency : nat -> Z) (w : world) : Z :=
  now w + elapsed latency (epoch w).

(** [time.time()], on the wall clock *)
Definition wall_time (latency : nat -> Z) : M Z :=
  fun w => Return (wall latency w) w.

(** Lines 179-191, with [time.time()] on the wall clock. *)
Definition timed_loop_head (latency : nat -> Z) (cfg : config) (end_time : Z)
    (max_runs : option Z) : M (option Z) :=
  match max_runs with
  | None =>
      t <- wall_time latency ;;
      let remaining := end_time - t in
      if remaining <=? 0 then ret None else ret (Some remaining)
  | Some _ =>
      let remaining := log_check_interval cfg in
      ps <- get_processes ;;
      let all_proc_term := negb (existsb is_alive ps) in
      if all_proc_term then ret None else ret (Some remaining)
  end.

(** Lines 177-204, with [time.time()] on the wall clock. *)
Fixpoint timed_polling_loop (latency : nat -> Z) (cfg : config) (env : environment)
    (fuel : nat) (end_time : Z) (max_runs : option Z)
    (stop_on_error : bool) (computes : list string) : M bool :=
  match fuel with
  | O => fun _ => OutOfFuel
  | S fuel' =>
      head <- timed_loop_head latency cfg end_time max_runs ;;
      match head with
      | None => ret false
      | Some remaining =>
          found <- loop_body cfg env remaining stop_on_error computes ;;
          if found then ret true
          else timed_polling_loop latency cfg env fuel' end_time max_runs stop_on_error computes
      end
  end.

(** * Vocabulary of the statements *)

(** [username and key_filename] of [do_ssh], as a truth value. *)
Definition has_credentials (cfg : config) : bool :=
  truthy (target_ssh_user cfg) && truthy (target_private_key_path cfg).

(** The process has been joined. *)
Definition joined (p : process) : Prop := process_ p = Joined.

(** A worker that has been joined is gone: it changes neither its state
    nor its shared statistic. *)
Definition joined_is_final (env : environment) : Prop :=
  forall k i s, worker_step env k i (Joined, s) = (Joined, s).

(** Events of [terminate_all_processes]. *)
Definition stop_event (e : event) : Prop :=
  match e with
  | EvTerminate _ | EvJoin _ => True
  | _ => False
  end.

(** What one process adds to the local variables, and its report line. *)
Definition tally (t : totals) (p : process) : totals :=
  Totals (if 0 <? fails (statistic_ p) then true else had_errors t)
         (sum_runs t + runs (statistic_ p))
         (sum_fails t + fails (statistic_ p)).

(** The line reported for a process whose statistic is as in the
    registry. *)
Definition process_line (p : process) : event :=
  EvInfoProcess (p_number p) (action p) (runs (statistic_ p)) (fails (statistic_ p)).

(** The per-process lines of the report. *)
Definition report_line (e : event) : Prop :=
  match e with
  | EvInfoProcess _ _ _ _ => True
  | _ => False
  end.

(** Number of calls of [cleanup.cleanup] in a trace. *)
Fixpoint cleanup_calls (tr : list event) : nat :=
  match tr with
  | [] => 0
  | EvCleanup :: tr' => S (cleanup_calls tr')
  | _ :: tr' => cleanup_calls tr'
  end.

(** The last lines of the report, given the final local variables. *)
Definition closing_events (t : totals) : list event :=
  [EvInfoSummary; EvInfoRun (sum_runs t) (sum_fails t)]
  ++ (if had_errors t then [] else [EvInfoCleaningUp; EvCleanup]).

(** [emits P m]: whatever [m] does, the events it adds all satisfy [P]. *)
Definition emits {A : Type} (P : event -> Prop) (m : M A) : Prop :=
  forall w,
    match m w with
    | Return _ w' | Raise _ w' => exists tr, events w' = events w ++ tr /\ Forall P tr
    | OutOfFuel => True
    end.

(** An error found in the remote logs and logged by the scan. *)
Definition log_error (e : event) : Prop :=
  match e with
  | EvLogError _ _ => True
  | _ => False
  end.

(** Events of lines 122-175, before the polling loop. *)
Definition setup_event (e : event) : Prop :=
  match e with
  | EvExec _ _ | EvCreateIdentity | EvSetUp _ | EvStart _ | EvSignal => True
  | _ => False
  end.

(** Events of an iteration of the polling loop that finds no error. *)
Definition quiet_poll_event (e : event) : Prop :=
  match e with
  | EvSleep _ | EvExec _ _ => True
  | _ => False
  end.

(** [process['statistic']['fails'] > 0] *)
Definition failing (p : process) : bool := 0 <? fails (statistic_ p).

(** Sum of one counter over the registry. *)
Definition total (key : statistic -> Z) (ps : list process) : Z :=
  fold_right (fun p acc => key (statistic_ p) + acc) 0 ps.

(** Every event of the polling loop is a sleep, a remote command or a
    logged error. *)
Definition poll_event (e : event) : Prop :=
  match e with
  | EvSleep _ | EvExec _ _ | EvLogError _ _ => True
  | _ => False
  end.

(** An answer to the log search that shows no error. *)
Definition silent (r : reply) : bool :=
  match r with
  | Output EmptyString => true
  | Failure SSHExecCommandFailed => true
  | _ => false
  end.

(** No log scan of the run finds anything: logs are not watched, or the
    channel is unavailable, or every search comes back empty. *)
Definition no_log_hit (cfg : config) (env : environment) : Prop :=
  truthy (target_logfiles cfg) = false \/
  has_credentials cfg = false \/
  forall k node,
    silent (exec_command env k node (grep_command (str (target_logfiles cfg)))) = true.

(** [n] iterations of the loop in run-count mode, where [remaining] is
    [log_check_interval]: the world at the next test of the workers. *)
Fixpoint after_ticks (cfg : config) (env : environment) (soe : bool)
    (computes : list string) (n : nat) : M unit :=
  match n with
  | O => ret tt
  | S n' =>
      loop_body cfg env (log_check_interval cfg) soe computes ;;
      after_ticks cfg env soe computes n'
  end.

(** Some process of the registry is alive. *)
Definition any_alive (w : world) : bool := existsb is_alive (processes w).

(** [preserves R m]: whatever [m] does, [R] relates the world before to
    the world after. *)
Definition preserves {A : Type} (R : world -> world -> Prop) (m : M A) : Prop :=
  forall w,
    match m w with
    | Return _ w' | Raise _ w' => R w w'
    | OutOfFuel => True
    end.

(** The clock reads the same. *)
Definition same_clock (w w' : world) : Prop := now w' = now w.

(** What identifies a registry entry in the report: [p_number] and
    [action]. *)
Definition label (p : process) : Z * string := (p_number p, action p).

(** The registry holds the same entries, whatever has become of the
    workers. *)
Definition same_labels (w w' : world) : Prop :=
  (label <$> processes w') = (label <$> processes w).

(** The workers a list of tests asks for, in the order of lines 129-134. *)
Definition replicas (tests : list test) : list (Z * string) :=
  flat_map (fun t => map (fun number => (number, test_action t)) (xrange (threads t))) tests.

(** What a line of the service listing contributes to the nodes: its
    second field, when its fifth field is the marker. *)
Definition listed (line : string) : list string :=
  match split_ws line !! 4%nat, split_ws line !! 1%nat with
  | Some status, Some name => if String.eqb status ":-)" then [name] else []
  | _, _ => []
  end.

(** A line without any field, or with at least five. *)
Definition well_formed_line (line : string) : Prop :=
  length (split_ws line) = 0%nat \/ (5 <= length (split_ws line))%nat.

(** [raises_within P m]: when [m] raises, the events it has added all
    satisfy [P]. *)
Definition raises_within {A : Type} (P : event -> Prop) (m : M A) : Prop :=
  forall w e w',
    m w = Raise e w' ->
    exists tr, events w' = events w ++ tr /\ Forall P tr.

(** Events of a run before its report: those of the set-up and of the
    polling loop. *)
Definition before_report (e : event) : Prop := setup_event e \/ poll_event e.

(** The registry entry a report line speaks of. *)
Definition line_label (e : event) : option (Z * string) :=
  match e with
  | EvInfoProcess number a _ _ => Some (number, a)
  | _ => None
  end.

(** The registry of [w'] is that of [w] followed by entries labelled
    [added]. *)
Definition registry_grown (added : list (Z * string)) (w w' : world) : Prop :=
  (label <$> processes w') = (label <$> processes w) ++ added.

(** What [terminate_all_processes] does for the process at position [i]:
    a [terminate()] when it finds it alive, then the [join()]. *)
Definition stop_block (i : nat) (attempted : bool) : list event :=
  (if attempted then [EvTerminate i] else []) ++ [EvJoin i].

(** The blocks of the processes from position [a] on, [attempted] saying
    which of them were found alive. *)
Fixpoint stop_trace (a : nat) (attempted : list bool) : list event :=
  match attempted with
  | [] => []
  | b :: rest => stop_block a b ++ stop_trace (S a) rest
  end.

(** The loop of [terminate_all_processes] finds the process at position
    [i] alive ([b = true]) or not ([b = false]): [b] is what [is_alive()]
    answers in the world the first [i] iterations leave. *)
Definition found_alive (env : environment) (w : world) (i : nat) (b : bool) : Prop :=
  exists wi p,
    for_each (seq 0 i) (terminate_and_join env) w = Return tt wi /\
    processes wi !! i = Some p /\
    is_alive p = b.

(** No worker goes from alive to not alive, or back, by itself. *)
Definition steady (env : environment) : Prop :=
  forall k i p, is_alive (run_worker env k i p) = is_alive p.

(** The position a [join()] is called on. *)
Definition join_index (e : event) : option nat :=
  match e with
  | EvJoin i => Some i
  | _ => None
  end.

(** The registry position a worker is started at. *)
Definition start_index (e : event) : option nat :=
  match e with
  | EvStart i => Some i
  | _ => None
  end.

(** Neither the start of a worker nor the installation of the handler. *)
Definition no_start_no_signal (e : event) : Prop :=
  start_index e = None /\ e <> EvSignal.

(** From [w] to [w'], [n] workers have been appended to the registry and
    started, at the positions that follow those of [w], and the handler
    has not been installed. *)
Definition started (n : nat) (w w' : world) : Prop :=
  length (processes w') = (length (processes w) + n)%nat /\
  exists tr,
    events w' = events w ++ tr /\
    omap start_index tr = seq (length (processes w)) n /\
    Forall (fun e => e <> EvSignal) tr.

(** The removal of the watched log files on [node], line 128. *)
Definition removal (cfg : config) (node : string) : event :=
  EvExec node ("rm -f " ++ str (target_logfiles cfg))%string.

(** The channel answers [command] or fails with [SSHExecCommandFailed],
    the exception [do_ssh] catches. *)
Definition answered (env : environment) (command : string) : Prop :=
  forall k host e, exec_command env k host command = Failure e -> e = SSHExecCommandFailed.

(** An event that involves no remote host: neither a command sent nor an
    error found in a remote log. *)
Definition local_event (e : event) : Prop :=
  match e with
  | EvExec _ _ | EvLogError _ _ => False
  | _ => True
  end.









(** * Scenarios

    Concrete configurations, environments and worlds on which the driver
    is run below. *)

(** No credentials, no watched logs, a log check every time unit. *)
Definition echo_cfg : config := Config None None None "controller" 1.

(** Workers that count a run in every interaction and never fail or
    exit; the channel fails; [terminate()] raises. *)
Definition echo_env : environment :=
  Environment
    (fun _ _ _ => Failure SSHExecCommandFailed)
    (fun _ _ hs =>
       match hs with
       | (Alive, Statistic r f) => (Alive, Statistic (r + 1) f)
       | _ => hs
       end)
    (fun _ _ => true)
    (fun _ _ => false).

(** One action on three threads. *)
Definition echo_tests : list test := [Test "EchoAction" 3 false false].

(** The world before a first run: an empty registry, nothing done. *)
Definition fresh : world := World 0 [] [] 0.

(** A registry with a running, an exited and a joined worker. *)
Definition mixed : world :=
  World 0
        [Process Alive 0 "EchoAction" (Statistic 4 0);
         Process Exited 1 "EchoAction" (Statistic 2 1);
         Process Joined 2 "EchoAction" (Statistic 7 0)]
        [] 0.

(** Workers that fail every other run, with the driver neither stopping
    on errors nor watching logs. *)
Definition flaky_env : environment :=
  Environment
    (fun _ _ _ => Failure SSHExecCommandFailed)
    (fun k _ hs =>
       match hs with
       | (Alive, Statistic r f) => (Alive, Statistic (r + 1) (if Nat.even k then f + 1 else f))
       | _ => hs
       end)
    (fun _ _ => false)
    (fun _ _ => false).

(** Credentials and a log path, with one compute node in the listing. *)
Definition watched_cfg : config :=
  Config (Some "root") (Some "/root/.ssh/id_rsa") (Some "/var/log/nova/nova.log")
         "controller" 1.

(** Two watched nodes: the log of the first is clean, the second shows an
    error. *)
Definition second_node_env : environment :=
  Environment
    (fun _ host _ => if String.eqb host "node2" then Output "ERROR boom" else Output EmptyString)
    (fun _ _ hs => hs)
    (fun _ _ => false)
    (fun _ _ => false).

(** A service listing whose second line stops after three fields. *)
Definition short_listing : string :=
  "nova-compute xg11eth0 nova enabled :-) 2011-10-31 18:57:46" ++ String newline
  "nova-compute xg12eth0 nova".

(** The channel answers every command with that listing. *)
Definition short_listing_env : environment :=
  Environment
    (fun _ _ _ => Output short_listing)
    (fun _ _ hs => hs)
    (fun _ _ => false)
    (fun _ _ => false).

(** A worker every run of which fails, and which never exits. *)
Definition failing_env : environment :=
  Environment
    (fun _ _ _ => Failure SSHExecCommandFailed)
    (fun _ _ hs =>
       match hs with
       | (Alive, Statistic r f) => (Alive, Statistic (r + 1) (f + 1))
       | _ => hs
       end)
    (fun _ _ => false)
    (fun _ _ => false).

(** The polling loop entered with one running worker. *)
Definition one_worker : world :=
  World 0 [Process Alive 0 "EchoAction" (Statistic 0 0)] [] 0.

(** The watched node reports an error at every scan; the worker runs
    without failing and never exits. *)
Definition log_error_env : environment :=
  Environment
    (fun _ _ command =>
       if String.eqb command service_list_command
       then Output "nova-compute node1 nova enabled :-) 2011-10-31 18:57:46"
       else if String.eqb command (grep_command "/var/log/nova/nova.log")
            then Output "ERROR boom"
            else Output EmptyString)
    (fun _ _ hs =>
       match hs with
       | (Alive, Statistic r f) => (Alive, Statistic (r + 1) f)
       | _ => hs
       end)
    (fun _ _ => false)
    (fun _ _ => false).

(** A worker that exits on its own after its third run. *)
Definition three_runs_env : environment :=
  Environment
    (fun _ _ _ => Failure SSHExecCommandFailed)
    (fun _ _ hs =>
       match hs with
       | (Alive, Statistic r f) =>
           (if 3 <=? r + 1 then Exited else Alive, Statistic (r + 1) f)
       | _ => hs
       end)
    (fun _ _ => false)
    (fun _ _ => false).

(** A listing with an active node, an inactive one, a blank line and
    another active node. *)
Definition full_listing : string :=
  "nova-compute xg11eth0 nova enabled :-) 2011-10-31 18:57:46" ++ String newline
  ("nova-compute xg12eth0 nova enabled XXX 2011-10-31 18:57:46" ++ String newline
  (String newline
  "nova-compute xg13eth0 nova enabled :-) 2011-10-31 18:57:47")).

(** The channel answers every command with that listing. *)
Definition full_listing_env : environment :=
  Environment
    (fun _ _ _ => Output full_listing)
    (fun _ _ hs => hs)
    (fun _ _ => false)
    (fun _ _ => false).

(** The channel times out on every command; workers run and never fail. *)
Definition timeout_env : environment :=
  Environment
    (fun _ _ _ => Failure (OtherException "SSHTimeout"))
    (fun _ _ hs =>
       match hs with
       | (Alive, Statistic r f) => (Alive, Statistic (r + 1) f)
       | _ => hs
       end)
    (fun _ _ => false)
    (fun _ _ => false).

(** The listing succeeds but every later command times out. *)
Definition late_timeout_env : environment :=
  Environment
    (fun _ _ command =>
       if String.eqb command service_list_command
       then Output "nova-compute node1 nova enabled :-) 2011-10-31 18:57:46"
       else if String.eqb command (grep_command "/var/log/nova/nova.log")
            then Failure (OtherException "SSHTimeout")
            else Output EmptyString)
    (fun _ _ hs =>
       match hs with
       | (Alive, Statistic r f) => (Alive, Statistic (r + 1) f)
       | _ => hs
       end)
    (fun _ _ => false)
    (fun _ _ => false).



(** The world a first run of [echo_tests] has left: its three workers,
    joined, are still in the registry. *)
Definition after_first_run : world :=
  World 2
        [Process Joined 0 "EchoAction" (Statistic 3 0);
         Process Joined 1 "EchoAction" (Statistic 4 0);
         Process Joined 2 "EchoAction" (Statistic 5 0)]
        [] 26.

(** The controller answers the listing with [full_listing]; removing a
    log file fails on every node. *)
Definition rm_fails_env : environment :=
  Environment
    (fun _ _ command =>
       if String.eqb command service_list_command then Output full_listing
       else Failure SSHExecCommandFailed)
    (fun _ _ hs => hs)
    (fun _ _ => false)
    (fun _ _ => false).

(** Log files to watch and a user, but no private key. *)
Definition no_key_cfg : config :=
  Config (Some "root") None (Some "/var/log/nova/nova.log") "controller" 1.


(** * Properties *)

(** ** Reasoning about the monad *)

Lemma bind_Return {A B : Type} (m : M A) (k : A -> M B) (w w' : world) (a : A) :
  m w = Return a w' -> bind m k w = k a w'.
Proof. intros H. unfold bind. now rewrite H. Qed.

Lemma bind_Raise {A B : Type} (m : M A) (k : A -> M B) (w w' : world) (e : exn) :
  m w = Raise e w' -> bind m k w = Raise e w'.
Proof. intros H. unfold bind. now rewrite H. Qed.

Lemma bind_inv {A B : Type} (m : M A) (k : A -> M B) (w w2 : world) (b : B) :
  bind m k w = Return b w2 ->
  exists a w1, m w = Return a w1 /\ k a w1 = Return b w2.
Proof.
  unfold bind. destruct (m w) as [a w1| |]; intros H; try discriminate.
  exists a, w1. split; [reflexivity | exact H].
Qed.

(** ** The remote channel *)

Lemma do_ssh_without_credentials cfg env command host w :
  has_credentials cfg = false ->
  do_ssh cfg env command host w = Return None w.
Proof.
  unfold has_credentials, do_ssh. intros ->. reflexivity.
Qed.

Lemma do_ssh_with_credentials cfg env command host w :
  has_credentials cfg = true ->
  do_ssh cfg env command host w =
    let w' := World (now w) (progress env (epoch w) (processes w))
                    (events w ++ [EvExec host command]) (S (epoch w)) in
    match exec_command env (epoch w) host command with
    | Output out => Return (Some out) w'
    | Failure SSHExecCommandFailed => Return None w'
    | Failure e => Raise e w'
    end.
Proof.
  unfold has_credentials, do_ssh. intros ->. cbn.
  unfold bind, ssh_exec_command.
  destruct (exec_command env (epoch w) host command) as [out|[]]; reflexivity.
Qed.

Lemma error_scan_without_credentials cfg env grep nodes w :
  has_credentials cfg = false ->
  error_scan cfg env grep nodes w = Return None w.
Proof.
  intros H. destruct nodes as [|node rest]; [reflexivity|].
  cbn. erewrite bind_Return by (apply do_ssh_without_credentials; exact H).
  reflexivity.
Qed.

Lemma prepare_logs_without_credentials cfg env w :
  has_credentials cfg = false ->
  prepare_logs cfg env w = Return [] w.
Proof.
  intros H. unfold prepare_logs.
  destruct (truthy (target_logfiles cfg)); [|reflexivity].
  unfold _get_compute_nodes.
  erewrite bind_Return.
  2:{ erewrite bind_Return by (apply do_ssh_without_credentials; exact H). reflexivity. }
  reflexivity.
Qed.

(** The scan never looks beyond the first node. *)
Lemma error_scan_first_node cfg env grep node rest w :
  error_scan cfg env grep (node :: rest) w = error_scan cfg env grep [node] w.
Proof.
  cbn. unfold bind.
  destruct (do_ssh cfg env grep node w) as [[[|c s]|] w'| |]; reflexivity.
Qed.

(** The names of the lines whose fifth field is the marker. *)
Lemma active_nodes_five_fields (lines : list string) :
  forall nodes,
    Forall (fun line => length (split_ws line) = 0%nat \/ (5 <= length (split_ws line))%nat) lines ->
    exists names, active_nodes lines nodes = Ok (nodes ++ names).
Proof.
  induction lines as [|l rest IH]; intros nodes Hall.
  - exists []. cbn. now rewrite app_nil_r.
  - inversion Hall as [|? ? Hl Hrest]; subst. cbn [active_nodes].
    destruct (0 <? Z.of_nat (length (split_ws l))) eqn:E; [|now apply IH].
    destruct Hl as [Hl|Hl]; [rewrite Hl in E; discriminate|].
    destruct (lookup_lt_is_Some_2 (split_ws l) 4) as [status Hs]; [lia|].
    destruct (lookup_lt_is_Some_2 (split_ws l) 1) as [name Hn]; [lia|].
    rewrite Hs, Hn.
    destruct (String.eqb status ":-)"); [|now apply IH].
    destruct (IH (nodes ++ [name]) Hrest) as [names Hnames].
    exists (name :: names). rewrite Hnames. now rewrite <- app_assoc.
Qed.

(** A line of one to four fields makes the listing raise, wherever it is. *)
Lemma active_nodes_short_line (lines : list string) :
  forall nodes line,
    In line lines ->
    (0 < length (split_ws line) <= 4)%nat ->
    active_nodes lines nodes = Err IndexError.
Proof.
  induction lines as [|l rest IH]; intros nodes line Hin Hlen; [destruct Hin|].
  cbn [active_nodes].
  destruct Hin as [->|Hin].
  - destruct (0 <? Z.of_nat (length (split_ws line))) eqn:E; [|lia].
    rewrite (proj2 (lookup_ge_None (split_ws line) 4)) by lia. reflexivity.
  - destruct (0 <? Z.of_nat (length (split_ws l))); [|eauto].
    destruct (split_ws l !! 4%nat) as [status|]; [|reflexivity].
    destruct (String.eqb status ":-)"); [|eauto].
    destruct (split_ws l !! 1%nat); [eauto|reflexivity].
Qed.

(** ** The registry *)

Lemma run_worker_joined env k i p :
  joined_is_final env -> joined p -> run_worker env k i p = p.
Proof.
  intros Hfin Hp. destruct p as [h n a s]. unfold joined in Hp. cbn in Hp. subst h.
  unfold run_worker. cbn. now rewrite Hfin.
Qed.

Lemma progress_length env k ps : length (progress env k ps) = length ps.
Proof. apply length_imap. Qed.

Lemma progress_lookup env k ps i :
  progress env k ps !! i = run_worker env k i <$> ps !! i.
Proof. apply list_lookup_imap. Qed.

Lemma progress_joined env k ps :
  joined_is_final env -> Forall joined ps -> progress env k ps = ps.
Proof.
  intros Hfin Hall. apply list_eq. intros i. rewrite progress_lookup.
  destruct (ps !! i) as [p|] eqn:E; [|reflexivity].
  cbn. f_equal. apply run_worker_joined; [exact Hfin|].
  eapply Forall_lookup_1; eassumption.
Qed.

Lemma set_handle_joined p : joined p -> set_handle Joined p = p.
Proof. destruct p as [h n a s]. unfold joined, set_handle. cbn. now intros ->. Qed.

Lemma joined_not_alive p : joined p -> is_alive p = false.
Proof. unfold joined, is_alive. now intros ->. Qed.

Lemma join_joined env k i ps :
  joined_is_final env -> Forall joined ps ->
  alter (set_handle Joined) i (progress env k ps) = ps.
Proof.
  intros Hfin Hall. rewrite progress_joined by assumption.
  apply list_eq. intros j. destruct (decide (i = j)) as [->|Hne].
  - rewrite list_lookup_alter_eq. destruct (ps !! j) as [p|] eqn:E; [|reflexivity].
    cbn. f_equal. apply set_handle_joined. eapply Forall_lookup_1; eassumption.
  - now rewrite list_lookup_alter_ne.
Qed.

(** One iteration of the termination loop. *)
Lemma terminate_and_join_spec env i w p :
  processes w !! i = Some p ->
  let b := if is_alive p then 1%nat else 0%nat in
  terminate_and_join env i w =
    Return false
      (World (now w)
             (alter (set_handle Joined) i (progress env (epoch w + b) (processes w)))
             (events w ++ (if is_alive p then [EvTerminate i] else []) ++ [EvJoin i])
             (S (epoch w + b))).
Proof.
  intros Hp. unfold terminate_and_join.
  erewrite bind_Return by (unfold registry_get; rewrite Hp; reflexivity).
  destruct (is_alive p); cbn.
  - unfold bind, try_pass, process_terminate, process_join, ret. cbn.
    replace (epoch w + 1)%nat with (S (epoch w)) by lia.
    destruct (terminate_raises env (epoch w) i); cbn; rewrite <- app_assoc; reflexivity.
  - unfold bind, process_join, ret. cbn.
    replace (epoch w + 0)%nat with (epoch w) by lia. reflexivity.
Qed.

(** The termination loop from position [a] on: it always completes, leaves
    the clock alone, emits only terminations and joins, and joins every
    process it visits. *)
Lemma terminate_loop env (m : nat) :
  forall (a : nat) (w : world),
    (a + m = length (processes w))%nat ->
    exists w',
      for_each (seq a m) (terminate_and_join env) w = Return tt w' /\
      now w' = now w /\
      length (processes w') = length (processes w) /\
      (exists tr, events w' = events w ++ tr /\ Forall stop_event tr /\
                  (joined_is_final env -> Forall joined (processes w) ->
                   tr = map EvJoin (seq a m))) /\
      (joined_is_final env ->
       (forall j p, (j < a)%nat -> processes w !! j = Some p -> joined p) ->
       Forall joined (processes w')) /\
      (joined_is_final env -> Forall joined (processes w) ->
       processes w' = processes w).
Proof.
  induction m as [|m IH]; intros a w Hlen.
  - exists w. cbn. split; [reflexivity|]. split; [reflexivity|]. split; [reflexivity|].
    split; [|split].
    + exists []. rewrite app_nil_r. split; [reflexivity|]. split; [constructor|reflexivity].
    + intros _ Hpre. apply Forall_lookup. intros j p Hj. apply (Hpre j p); [|exact Hj].
      apply lookup_lt_Some in Hj. lia.
    + reflexivity.
  - destruct (lookup_lt_is_Some_2 (processes w) a) as [p Hp]; [lia|].
    cbn [seq for_each].
    erewrite bind_Return by (apply terminate_and_join_spec; exact Hp).
    cbn zeta.
    set (b := if is_alive p then 1%nat else 0%nat).
    set (w1 := World _ _ _ _).
    assert (Hlen1 : length (processes w1) = length (processes w)).
    { unfold w1. cbn. now rewrite length_alter, progress_length. }
    destruct (IH (S a) w1) as (w' & Hrun & Hnow & Hl & (tr & Hev & Htr & Hjoins) & Hall & Hsame);
      [lia|].
    exists w'. split; [exact Hrun|]. split; [exact Hnow|]. split; [congruence|].
    assert (Hkeep : joined_is_final env -> Forall joined (processes w) ->
                    processes w1 = processes w).
    { intros Hfin Hj. unfold w1. cbn. now apply join_joined. }
    split; [|split].
    + exists (((if is_alive p then [EvTerminate a] else []) ++ [EvJoin a]) ++ tr).
      split; [rewrite Hev; unfold w1; cbn; now rewrite <- !app_assoc|].
      split.
      * apply Forall_app. split; [|exact Htr].
        destruct (is_alive p); repeat constructor.
      * intros Hfin Hj.
        assert (Hp' : joined p) by (eapply Forall_lookup_1; eassumption).
        rewrite (joined_not_alive p Hp'). cbn. f_equal.
        apply Hjoins; [exact Hfin|]. now rewrite Hkeep.
    + intros Hfin Hpre. apply Hall; [exact Hfin|].
      intros j q Hlt Hq. unfold w1 in Hq. cbn in Hq.
      destruct (decide (a = j)) as [->|Hne].
      * rewrite list_lookup_alter_eq in Hq.
        destruct (progress env (epoch w + b) (processes w) !! j); [|discriminate].
        cbn in Hq. injection Hq as <-. reflexivity.
      * rewrite list_lookup_alter_ne in Hq by exact Hne.
        rewrite progress_lookup in Hq.
        destruct (processes w !! j) as [q0|] eqn:Hq0; [|discriminate].
        cbn in Hq. injection Hq as <-.
        assert (joined q0) by (apply (Hpre j q0); [lia|exact Hq0]).
        now rewrite run_worker_joined.
    + intros Hfin Hj. rewrite Hsame; [now apply Hkeep|exact Hfin|now rewrite Hkeep].
Qed.

Lemma terminate_all_processes_spec env w :
  exists w',
    terminate_all_processes env w = Return tt w' /\
    now w' = now w /\
    length (processes w') = length (processes w) /\
    (exists tr, events w' = events w ++ tr /\ Forall stop_event tr /\
                (joined_is_final env -> Forall joined (processes w) ->
                 tr = map EvJoin (seq 0 (length (processes w))))) /\
    (joined_is_final env -> Forall joined (processes w')) /\
    (joined_is_final env -> Forall joined (processes w) ->
     processes w' = processes w).
Proof.
  destruct (terminate_loop env (length (processes w)) 0 w)
    as (w' & Hrun & Hnow & Hlen & Hev & Hall & Hsame); [reflexivity|].
  exists w'. split; [exact Hrun|]. split; [exact Hnow|]. split; [exact Hlen|].
  split; [exact Hev|]. split; [|exact Hsame].
  intros Hfin. apply Hall; [exact Hfin|]. intros j p Hj. lia.
Qed.

(** ** The statistics loop *)

Lemma shared_get_total env i key w :
  (i < length (processes w))%nat ->
  exists v,
    shared_get env i key w =
      Return v (World (now w) (progress env (epoch w) (processes w)) (events w) (S (epoch w))).
Proof.
  intros Hi. unfold shared_get.
  destruct (lookup_lt_is_Some_2 (progress env (epoch w) (processes w)) i) as [p Hp].
  { now rewrite progress_length. }
  rewrite Hp. eauto.
Qed.

Lemma shared_get_joined env i key w p :
  joined_is_final env -> Forall joined (processes w) ->
  processes w !! i = Some p ->
  shared_get env i key w =
    Return (key (statistic_ p)) (World (now w) (processes w) (events w) (S (epoch w))).
Proof.
  intros Hfin Hall Hp. unfold shared_get.
  rewrite progress_joined by assumption. now rewrite Hp.
Qed.

(** One iteration of the statistics loop, in any environment. *)
Lemma report_process_total env i t w :
  (i < length (processes w))%nat ->
  exists t' w' line,
    report_process env i t w = Return t' w' /\
    now w' = now w /\
    length (processes w') = length (processes w) /\
    events w' = events w ++ [line] /\ report_line line.
Proof.
  intros Hi. unfold report_process.
  destruct (shared_get_total env i fails w Hi) as [f Hf].
  erewrite bind_Return by exact Hf. clear Hf.
  set (w1 := World _ _ _ _).
  assert (H1 : (i < length (processes w1))%nat) by (unfold w1; cbn [processes]; now rewrite progress_length).
  destruct (shared_get_total env i runs w1 H1) as [r1 Hr1].
  erewrite bind_Return by exact Hr1. clear Hr1.
  set (w2 := World _ _ _ _).
  assert (H2 : (i < length (processes w2))%nat) by (unfold w2; cbn [processes]; now rewrite progress_length).
  destruct (shared_get_total env i fails w2 H2) as [f1 Hf1].
  erewrite bind_Return by exact Hf1. clear Hf1.
  set (w3 := World _ _ _ _).
  assert (H3 : (i < length (processes w3))%nat) by (unfold w3; cbn [processes]; now rewrite progress_length).
  destruct (lookup_lt_is_Some_2 (processes w3) i H3) as [p Hp].
  erewrite bind_Return by (unfold registry_get; rewrite Hp; reflexivity).
  destruct (shared_get_total env i runs w3 H3) as [r2 Hr2].
  erewrite bind_Return by exact Hr2. clear Hr2.
  set (w4 := World _ _ _ _).
  assert (H4 : (i < length (processes w4))%nat) by (unfold w4; cbn [processes]; now rewrite progress_length).
  destruct (shared_get_total env i fails w4 H4) as [f2 Hf2].
  erewrite bind_Return by exact Hf2. clear Hf2.
  set (w5 := World _ _ _ _).
  eexists _, _, (EvInfoProcess (p_number p) (action p) r2 f2).
  split; [reflexivity|]. cbn [now processes events].
  split; [reflexivity|]. split; [|split; [reflexivity|exact I]].
  unfold w5, w4, w3, w2, w1. cbn [processes]. now rewrite !progress_length.
Qed.

(** One iteration once every process has been joined: the values read are
    those of the registry. *)
Lemma report_process_joined env i t w p :
  joined_is_final env -> Forall joined (processes w) ->
  processes w !! i = Some p ->
  report_process env i t w =
    Return (tally t p)
           (World (now w) (processes w) (events w ++ [process_line p]) (5 + epoch w)).
Proof.
  intros Hfin Hall Hp. unfold report_process.
  erewrite bind_Return by (apply shared_get_joined; eassumption).
  erewrite bind_Return by (apply shared_get_joined; eassumption).
  erewrite bind_Return by (apply shared_get_joined; eassumption).
  erewrite bind_Return by (unfold registry_get; cbn; rewrite Hp; reflexivity).
  erewrite bind_Return by (apply shared_get_joined; eassumption).
  erewrite bind_Return by (apply shared_get_joined; eassumption).
  reflexivity.
Qed.

Lemma report_loop_total env (m : nat) :
  forall (a : nat) (t : totals) (w : world),
    (a + m <= length (processes w))%nat ->
    exists t' w' tr,
      for_fold (seq a m) (report_process env) t w = Return t' w' /\
      now w' = now w /\
      length (processes w') = length (processes w) /\
      events w' = events w ++ tr /\ Forall report_line tr.
Proof.
  induction m as [|m IH]; intros a t w Hlen.
  - exists t, w, []. cbn. rewrite app_nil_r. repeat split; constructor.
  - destruct (report_process_total env a t w) as (t1 & w1 & line & Hrun & Hnow & Hl & Hev & Hline);
      [lia|].
    cbn [seq for_fold]. erewrite bind_Return by exact Hrun.
    destruct (IH (S a) t1 w1) as (t' & w' & tr & Hrun' & Hnow' & Hl' & Hev' & Htr); [lia|].
    exists t', w', (line :: tr). split; [exact Hrun'|].
    split; [congruence|]. split; [congruence|].
    split; [rewrite Hev', Hev, <- app_assoc; reflexivity|].
    constructor; assumption.
Qed.

Lemma report_loop_joined env (m : nat) :
  joined_is_final env ->
  forall (a : nat) (t : totals) (w : world),
    Forall joined (processes w) ->
    (a + m = length (processes w))%nat ->
    for_fold (seq a m) (report_process env) t w =
      Return (fold_left tally (drop a (processes w)) t)
             (World (now w) (processes w)
                    (events w ++ map process_line (drop a (processes w)))
                    (5 * m + epoch w)).
Proof.
  intros Hfin. induction m as [|m IH]; intros a t w Hall Hlen.
  - rewrite drop_ge by lia. cbn. rewrite app_nil_r. now destruct w.
  - destruct (lookup_lt_is_Some_2 (processes w) a) as [p Hp]; [lia|].
    cbn [seq for_fold].
    erewrite bind_Return by (apply report_process_joined; eassumption).
    rewrite IH; cbn [processes]; [|exact Hall|lia].
    rewrite (drop_S _ _ _ Hp). cbn [fold_left map now events epoch].
    rewrite <- app_assoc. do 2 f_equal. lia.
Qed.

(** ** The report *)

(** Lines 206-232 step by step: the registry is terminated and joined (world
    [w1]), then the statistics are read and reported (world [w2]). *)
Lemma report_spec env had w :
  exists w1 t w2 tr_stop tr_lines,
    terminate_all_processes env w = Return tt w1 /\
    events w1 = events w ++ tr_stop /\ Forall stop_event tr_stop /\
    (joined_is_final env -> Forall joined (processes w1)) /\
    report env had w = Return (RunReport (if had_errors t then 1 else 0) t) w2 /\
    now w2 = now w /\
    length (processes w2) = length (processes w) /\
    events w2 = events w1 ++ [EvInfoStatistics] ++ tr_lines ++ closing_events t /\
    Forall report_line tr_lines /\
    (joined_is_final env ->
     processes w2 = processes w1 /\
     t = fold_left tally (processes w1) (Totals had 0 0) /\
     tr_lines = map process_line (processes w1)).
Proof.
  destruct (terminate_all_processes_spec env w)
    as (w1 & Hstop & Hnow1 & Hlen1 & (tr_stop & Hev1 & Htr1 & _) & Hall & _).
  set (ws := World (now w1) (processes w1) (events w1 ++ [EvInfoStatistics]) (epoch w1)).
  destruct (report_loop_total env (length (processes ws)) 0 (Totals had 0 0) ws)
    as (t & w2 & tr & Hloop & Hnow2 & Hlen2 & Hev2 & Htr2); [reflexivity|].
  exists w1, t,
    (World (now w2) (processes w2) (events w2 ++ closing_events t) (epoch w2)),
    tr_stop, tr.
  split; [exact Hstop|]. split; [exact Hev1|]. split; [exact Htr1|].
  split; [exact Hall|]. split.
  { unfold report. erewrite bind_Return by exact Hstop.
    unfold bind at 1. unfold emit at 1. fold ws.
    unfold bind at 1. unfold get_processes at 1.
    erewrite bind_Return by exact Hloop.
    unfold closing_events, bind, emit, ret. cbn.
    destruct (had_errors t); cbn; rewrite <- ?app_assoc; reflexivity. }
  change (now w2 = now w1) in Hnow2.
  change (length (processes w2) = length (processes w1)) in Hlen2.
  change (events w2 = (events w1 ++ [EvInfoStatistics]) ++ tr) in Hev2.
  split; [cbn; congruence|]. split; [cbn; congruence|].
  split; [cbn; rewrite Hev2; now rewrite <- !app_assoc|].
  split; [exact Htr2|].
  intros Hfin. specialize (Hall Hfin).
  rewrite (report_loop_joined env _ Hfin 0 _ ws Hall eq_refl) in Hloop.
  injection Hloop as Ht Hw2. subst t w2. cbn [processes events] in *.
  rewrite drop_0 in *. split; [reflexivity|]. split; [reflexivity|].
  now apply app_inv_head in Hev2.
Qed.

(** ** Traces *)

Lemma emits_nothing {A : Type} (P : event -> Prop) (m : M A) :
  (forall w, match m w with
             | Return _ w' | Raise _ w' => events w' = events w
             | OutOfFuel => True
             end) ->
  emits P m.
Proof.
  intros H w. specialize (H w). destruct (m w); try exact I;
    exists []; rewrite app_nil_r; split; auto.
Qed.

Lemma emits_one {A : Type} (P : event -> Prop) (m : M A) (e : event) :
  P e ->
  (forall w, match m w with
             | Return _ w' | Raise _ w' => events w' = events w ++ [e]
             | OutOfFuel => True
             end) ->
  emits P m.
Proof.
  intros He H w. specialize (H w). destruct (m w); try exact I;
    exists [e]; split; auto.
Qed.

Lemma emits_ret {A : Type} (P : event -> Prop) (a : A) : emits P (ret a).
Proof. apply emits_nothing. intros w. reflexivity. Qed.

Lemma emits_raise {A : Type} (P : event -> Prop) (e : exn) : emits P (@raise A e).
Proof. apply emits_nothing. intros w. reflexivity. Qed.

Lemma emits_bind {A B : Type} (P : event -> Prop) (m : M A) (k : A -> M B) :
  emits P m -> (forall a, emits P (k a)) -> emits P (bind m k).
Proof.
  intros Hm Hk w. unfold bind. specialize (Hm w).
  destruct (m w) as [a w1|e w1|]; [|exact Hm|exact I].
  destruct Hm as (tr1 & Hev1 & Htr1). specialize (Hk a w1).
  destruct (k a w1) as [b w2|e w2|]; try exact I;
    destruct Hk as (tr2 & Hev2 & Htr2); exists (tr1 ++ tr2);
    (split; [rewrite Hev2, Hev1; now rewrite app_assoc | now apply Forall_app]).
Qed.

Lemma emits_weaken {A : Type} (P Q : event -> Prop) (m : M A) :
  (forall e, P e -> Q e) -> emits P m -> emits Q m.
Proof.
  intros HPQ Hm w. specialize (Hm w).
  destruct (m w); try exact I; destruct Hm as (tr & Hev & Htr);
    exists tr; (split; [exact Hev | eapply Forall_impl; eauto]).
Qed.

Lemma emits_for_each {A : Type} (P : event -> Prop) (xs : list A) (body : A -> M bool) :
  (forall x, emits P (body x)) -> emits P (for_each xs body).
Proof.
  intros Hbody. induction xs as [|x xs IH]; cbn [for_each].
  - apply emits_ret.
  - apply emits_bind; [apply Hbody|]. intros [|]; [apply emits_ret|exact IH].
Qed.

Lemma emits_for_fold {A S : Type} (P : event -> Prop) (xs : list A) (body : A -> S -> M S) :
  (forall x s, emits P (body x s)) -> forall s, emits P (for_fold xs body s).
Proof.
  intros Hbody. induction xs as [|x xs IH]; intros s; cbn [for_fold].
  - apply emits_ret.
  - apply emits_bind; [apply Hbody|]. intros s'. apply IH.
Qed.

Lemma emits_emit (P : event -> Prop) (e : event) : P e -> emits P (emit e).
Proof. intros He. apply (emits_one P _ e He). intros w. reflexivity. Qed.

Lemma emits_Return {A : Type} (P : event -> Prop) (m : M A) w a w' :
  emits P m -> m w = Return a w' ->
  exists tr, events w' = events w ++ tr /\ Forall P tr.
Proof. intros Hm Hrun. specialize (Hm w). now rewrite Hrun in Hm. Qed.

Section Emits.

Variable cfg : config.
Variable env : environment.
Variable P : event -> Prop.

Lemma emits_get_processes : emits P get_processes.
Proof. apply emits_nothing. intros w. reflexivity. Qed.

Lemma emits_time_time : emits P time_time.
Proof. apply emits_nothing. intros w. reflexivity. Qed.

Lemma emits_registry_get i : emits P (registry_get i).
Proof.
  apply emits_nothing. intros w. unfold registry_get.
  destruct (processes w !! i); reflexivity.
Qed.

Lemma emits_shared_get i key : emits P (shared_get env i key).
Proof.
  apply emits_nothing. intros w. unfold shared_get. cbn.
  destruct (progress env (epoch w) (processes w) !! i); reflexivity.
Qed.

Lemma emits_lift {A : Type} (r : result A) : emits P (lift r).
Proof. apply emits_nothing. intros w. destruct r; reflexivity. Qed.

Lemma emits_time_sleep d : P (EvSleep d) -> emits P (time_sleep env d).
Proof.
  intros Hd w. unfold time_sleep. destruct (d <? 0).
  - exists []. rewrite app_nil_r. split; auto.
  - exists [EvSleep d]. split; auto.
Qed.

Lemma emits_check_fails : emits P (check_fails env).
Proof.
  unfold check_fails. apply emits_bind; [apply emits_get_processes|]. intros ps.
  apply emits_for_each. intros i. unfold check_fail.
  apply emits_bind; [apply emits_shared_get|]. intros f. apply emits_ret.
Qed.

Hypothesis P_exec : forall host command, P (EvExec host command).

Lemma emits_do_ssh command host : emits P (do_ssh cfg env command host).
Proof.
  unfold do_ssh. destruct (negb _); [apply emits_ret|].
  apply emits_bind.
  - apply (emits_one P _ (EvExec host command)); [apply P_exec|]. intros w. reflexivity.
  - intros [out|[]]; try apply emits_ret; apply emits_raise.
Qed.

Lemma emits_get_compute_nodes controller : emits P (_get_compute_nodes cfg env controller).
Proof.
  unfold _get_compute_nodes. apply emits_bind; [apply emits_do_ssh|].
  intros [[|c s]|]; try apply emits_ret. apply emits_lift.
Qed.

Lemma emits_prepare_logs : emits P (prepare_logs cfg env).
Proof.
  unfold prepare_logs. destruct (truthy _); [|apply emits_ret].
  apply emits_bind; [apply emits_get_compute_nodes|]. intros computes.
  apply emits_bind; [|intros; apply emits_ret].
  apply emits_for_each. intros node.
  apply emits_bind; [apply emits_do_ssh|]. intros; apply emits_ret.
Qed.

Hypothesis P_log_error : forall node errors, P (EvLogError node errors).

Lemma emits_error_in_logs logfiles nodes : emits P (_error_in_logs cfg env logfiles nodes).
Proof.
  unfold _error_in_logs. generalize (grep_command logfiles). intros grep.
  induction nodes as [|node rest IH]; cbn [error_scan]; [apply emits_ret|].
  apply emits_bind; [apply emits_do_ssh|].
  intros [[|c s]|]; try apply emits_ret.
  destruct (0 <? len (String c s)); [|exact IH].
  apply emits_bind; [apply emits_emit, P_log_error|]. intros; apply emits_ret.
Qed.

End Emits.

Lemma cleanup_calls_app tr1 tr2 :
  cleanup_calls (tr1 ++ tr2) = (cleanup_calls tr1 + cleanup_calls tr2)%nat.
Proof.
  induction tr1 as [|e tr1 IH]; [reflexivity|].
  destruct e; cbn; rewrite ?IH; reflexivity.
Qed.

(** A trace of events that are neither cleanups nor log errors. *)
Lemma plain_trace (P : event -> Prop) (tr : list event) :
  (forall e, P e -> e <> EvCleanup /\ ~ log_error e) ->
  Forall P tr ->
  cleanup_calls tr = 0%nat /\ ~ Exists log_error tr.
Proof.
  intros HP. induction 1 as [|e tr He _ [IHc IHl]].
  - split; [reflexivity|]. intros H. inversion H.
  - destruct (HP e He) as [Hc Hl]. split.
    + destruct e; cbn; try exact IHc. now contradiction Hc.
    + intros H. inversion H; subst; contradiction.
Qed.

Lemma setup_event_plain e : setup_event e -> e <> EvCleanup /\ ~ log_error e.
Proof. destruct e; cbn; intros H; try contradiction; split; (discriminate || tauto). Qed.

Lemma quiet_poll_event_plain e : quiet_poll_event e -> e <> EvCleanup /\ ~ log_error e.
Proof. destruct e; cbn; intros H; try contradiction; split; (discriminate || tauto). Qed.

Lemma stop_event_plain e : stop_event e -> e <> EvCleanup /\ ~ log_error e.
Proof. destruct e; cbn; intros H; try contradiction; split; (discriminate || tauto). Qed.

Lemma report_line_plain e : report_line e -> e <> EvCleanup /\ ~ log_error e.
Proof. destruct e; cbn; intros H; try contradiction; split; (discriminate || tauto). Qed.

Lemma emits_spawn_all env tests : emits setup_event (spawn_all env tests).
Proof.
  unfold spawn_all. apply emits_for_each. intros t.
  apply emits_bind; [|intros; apply emits_ret].
  apply emits_for_each. intros number.
  apply emits_bind; [|intros; apply emits_ret].
  unfold spawn.
  apply emits_bind.
  { destruct (use_isolated_tenants t); [apply emits_emit; exact I|apply emits_ret]. }
  intros _. apply emits_bind.
  { intros w. unfold setUp. destruct (setUp_raises env (epoch w) (test_action t));
      exists [EvSetUp (test_action t)]; split; try reflexivity; repeat constructor. }
  intros _. apply emits_bind; [|intros; apply emits_ret].
  intros w. cbn. exists [EvStart (length (processes w))]. split; [reflexivity|].
  repeat constructor.
Qed.

(** ** Events of the polling loop *)

Lemma error_scan_events cfg env grep nodes w o w' :
  error_scan cfg env grep nodes w = Return o w' ->
  exists tr,
    events w' = events w ++ tr /\
    (truthy o = false -> Forall quiet_poll_event tr) /\
    (truthy o = true -> Exists log_error tr).
Proof.
  destruct nodes as [|node rest].
  - cbn. intros [= <- <-]. exists []. rewrite app_nil_r.
    split; [reflexivity|]. split; [constructor|discriminate].
  - rewrite error_scan_first_node. cbn [error_scan]. intros Hrun.
    apply bind_inv in Hrun. destruct Hrun as (errors & w1 & Hssh & Hrest).
    destruct (emits_Return quiet_poll_event _ _ _ _
                (emits_do_ssh cfg env quiet_poll_event (fun _ _ => I) grep node) Hssh)
      as (tr1 & Hev1 & Htr1).
    destruct errors as [[|c s]|].
    + injection Hrest as <- <-. exists tr1. split; [exact Hev1|].
      split; [intros _; exact Htr1|discriminate].
    + cbn in Hrest. injection Hrest as <- <-.
      exists (tr1 ++ [EvLogError node (String c s)]). cbn.
      split; [rewrite Hev1; now rewrite app_assoc|].
      split; [discriminate|]. intros _. apply Exists_app. right. constructor. exact I.
    + injection Hrest as <- <-. exists tr1. split; [exact Hev1|].
      split; [intros _; exact Htr1|discriminate].
Qed.

Lemma loop_body_events cfg env remaining soe computes w found w' :
  loop_body cfg env remaining soe computes w = Return found w' ->
  exists tr,
    events w' = events w ++ tr /\
    (found = false -> Forall quiet_poll_event tr) /\
    (found = true -> Exists log_error tr).
Proof.
  unfold loop_body. intros Hrun.
  apply bind_inv in Hrun. destruct Hrun as ([] & w1 & Hsleep & Hrun).
  apply bind_inv in Hrun. destruct Hrun as ([] & w2 & Hcheck & Hrun).
  destruct (emits_Return quiet_poll_event _ _ _ _
              (emits_time_sleep env quiet_poll_event _ I) Hsleep) as (tr1 & Hev1 & Htr1).
  assert (Hc : emits quiet_poll_event (if soe then check_fails env else ret tt)).
  { destruct soe; [apply emits_check_fails|apply emits_ret]. }
  destruct (emits_Return _ _ _ _ _ Hc Hcheck) as (tr2 & Hev2 & Htr2).
  destruct (negb (truthy (target_logfiles cfg))).
  - injection Hrun as <- <-. exists (tr1 ++ tr2).
    split; [rewrite Hev2, Hev1; now rewrite app_assoc|].
    split; [intros _; now apply Forall_app|discriminate].
  - apply bind_inv in Hrun. destruct Hrun as (errors & w3 & Hscan & Hret).
    injection Hret as <- <-.
    destruct (error_scan_events _ _ _ _ _ _ _ Hscan) as (tr3 & Hev3 & Hquiet & Hloud).
    exists (tr1 ++ tr2 ++ tr3).
    split; [rewrite Hev3, Hev2, Hev1; now rewrite <- !app_assoc|].
    split.
    + intros Hf. apply Forall_app. split; [exact Htr1|]. apply Forall_app. auto.
    + intros Ht. apply Exists_app. right. apply Exists_app. right. auto.
Qed.

Lemma loop_head_world cfg end_time max_runs w head w' :
  loop_head cfg end_time max_runs w = Return head w' -> w' = w.
Proof.
  unfold loop_head. destruct max_runs as [n|]; cbn.
  - destruct (negb (existsb is_alive (processes w))); now intros [= _ <-].
  - destruct (end_time - now w <=? 0); now intros [= _ <-].
Qed.

Lemma polling_loop_events cfg env (fuel : nat) end_time max_runs soe computes :
  forall w had w',
    polling_loop cfg env fuel end_time max_runs soe computes w = Return had w' ->
    exists tr,
      events w' = events w ++ tr /\
      (had = false -> Forall quiet_poll_event tr) /\
      (had = true -> Exists log_error tr).
Proof.
  induction fuel as [|fuel IH]; intros w had w' Hrun; [discriminate|].
  cbn [polling_loop] in Hrun.
  apply bind_inv in Hrun. destruct Hrun as (head & w0 & Hhead & Hrun).
  apply loop_head_world in Hhead. subst w0.
  destruct head as [remaining|].
  - apply bind_inv in Hrun. destruct Hrun as (found & w1 & Hbody & Hrun).
    destruct (loop_body_events _ _ _ _ _ _ _ _ Hbody) as (tr1 & Hev1 & Hquiet & Hloud).
    destruct found.
    + injection Hrun as <- <-. exists tr1. split; [exact Hev1|].
      split; [discriminate|auto].
    + destruct (IH _ _ _ Hrun) as (tr2 & Hev2 & Hquiet2 & Hloud2).
      exists (tr1 ++ tr2). split; [rewrite Hev2, Hev1; now rewrite app_assoc|].
      split.
      * intros Hf. apply Forall_app. auto.
      * intros Ht. apply Exists_app. right. auto.
  - injection Hrun as <- <-. exists []. rewrite app_nil_r.
    split; [reflexivity|]. split; [constructor|discriminate].
Qed.

(** ** The totals *)

Lemma fold_tally (ps : list process) :
  forall t,
    fold_left tally ps t =
      Totals (had_errors t || existsb failing ps)
             (sum_runs t + total runs ps)
             (sum_fails t + total fails ps).
Proof.
  induction ps as [|p ps IH]; intros [had r f]; cbn [fold_left existsb total fold_right].
  - cbn. rewrite orb_false_r, !Z.add_0_r. reflexivity.
  - rewrite IH. unfold tally, failing. cbn [had_errors sum_runs sum_fails].
    f_equal; [|unfold total; cbn; lia|unfold total; cbn; lia].
    destruct (0 <? fails (statistic_ p)), had; reflexivity.
Qed.

(** ** A run, phase by phase *)

Lemma stress_openstack_inv cfg env fuel tests duration max_runs soe w r w' :
  stress_openstack cfg env fuel tests duration max_runs soe w = Return r w' ->
  exists computes ws had wl tr_setup,
    events ws = events w ++ tr_setup /\ Forall setup_event tr_setup /\
    polling_loop cfg env fuel (now ws + duration) max_runs soe computes ws = Return had wl /\
    report env had wl = Return r w'.
Proof.
  unfold stress_openstack. intros Hrun.
  apply bind_inv in Hrun. destruct Hrun as (computes & w1 & Hprep & Hrun).
  apply bind_inv in Hrun. destruct Hrun as ([] & w2 & Hspawn & Hrun).
  apply bind_inv in Hrun. destruct Hrun as ([] & w3 & Hsig & Hrun).
  apply bind_inv in Hrun. destruct Hrun as (t & w4 & Htime & Hrun).
  injection Htime as <- <-.
  apply bind_inv in Hrun. destruct Hrun as (had & wl & Hloop & Hrep).
  destruct (emits_Return setup_event _ _ _ _
              (emits_prepare_logs cfg env setup_event (fun _ _ => I)) Hprep)
    as (tr1 & Hev1 & Htr1).
  destruct (emits_Return _ _ _ _ _ (emits_spawn_all env tests) Hspawn)
    as (tr2 & Hev2 & Htr2).
  assert (Hs : emits setup_event (if soe then emit EvSignal else ret tt)).
  { destruct soe; [apply emits_emit; exact I|apply emits_ret]. }
  destruct (emits_Return _ _ _ _ _ Hs Hsig) as (tr3 & Hev3 & Htr3).
  exists computes, w3, had, wl, (tr1 ++ tr2 ++ tr3).
  split; [rewrite Hev3, Hev2, Hev1; now rewrite <- !app_assoc|].
  split; [repeat (apply Forall_app; split); assumption|].
  split; assumption.
Qed.

(** What [report] gives in any environment. *)
Lemma report_outcome env had w :
  exists r w' tr,
    report env had w = Return r w' /\
    events w' = events w ++ tr /\
    ~ Exists log_error tr /\
    exit_status r = (if had_errors (final r) then 1 else 0) /\
    cleanup_calls tr = (if had_errors (final r) then 0 else 1)%nat.
Proof.
  destruct (report_spec env had w)
    as (w1 & t & w2 & tr_stop & tr_lines & _ & Hev1 & Hstop & _ & Hrep & _ & _ & Hev2 & Hlines & _).
  exists (RunReport (if had_errors t then 1 else 0) t), w2,
    (tr_stop ++ [EvInfoStatistics] ++ tr_lines ++ closing_events t).
  split; [exact Hrep|].
  split; [rewrite Hev2, Hev1; now rewrite <- !app_assoc|].
  destruct (plain_trace _ _ stop_event_plain Hstop) as [Hc1 Hl1].
  destruct (plain_trace _ _ report_line_plain Hlines) as [Hc2 Hl2].
  cbn [final exit_status]. split; [|split].
  - rewrite !Exists_app. intros [H|[H|[H|H]]]; try contradiction.
    + inversion H as [? ? He|? ? He]; [exact He|inversion He].
    + unfold closing_events in H. destruct (had_errors t); cbn in H;
        repeat match goal with
               | H : Exists _ (_ :: _) |- _ => inversion H; clear H; subst
               | H : Exists _ [] |- _ => inversion H
               | H : log_error _ |- _ => exact H
               end.
  - destruct (had_errors t); reflexivity.
  - rewrite !cleanup_calls_app, Hc1, Hc2. unfold closing_events.
    destruct (had_errors t); reflexivity.
Qed.

Lemma cleanup_free (P : event -> Prop) (tr : list event) :
  (forall e, P e -> e <> EvCleanup) -> Forall P tr -> cleanup_calls tr = 0%nat.
Proof.
  intros HP. induction 1 as [|e tr He _ IH]; [reflexivity|].
  specialize (HP e He). destruct e; cbn; try exact IH. now contradiction HP.
Qed.

Lemma emits_loop_head cfg P end_time max_runs : emits P (loop_head cfg end_time max_runs).
Proof.
  apply emits_nothing. intros w.
  destruct (loop_head cfg end_time max_runs w) as [head w'|e w'|] eqn:E; [| |exact I].
  - apply loop_head_world in E. now subst.
  - unfold loop_head in E. destruct max_runs; cbn in E.
    + destruct (negb _) in E; discriminate.
    + destruct (_ <=? _) in E; discriminate.
Qed.

Lemma emits_loop_body cfg env remaining soe computes :
  emits poll_event (loop_body cfg env remaining soe computes).
Proof.
  unfold loop_body.
  apply emits_bind; [apply emits_time_sleep; exact I|]. intros _.
  apply emits_bind; [destruct soe; [apply emits_check_fails|apply emits_ret]|]. intros _.
  destruct (negb _); [apply emits_ret|].
  apply emits_bind; [|intros; apply emits_ret].
  apply emits_error_in_logs; intros; exact I.
Qed.

Lemma emits_polling_loop cfg env (fuel : nat) end_time max_runs soe computes :
  emits poll_event (polling_loop cfg env fuel end_time max_runs soe computes).
Proof.
  induction fuel as [|fuel IH]; cbn [polling_loop]; [intros w; exact I|].
  apply emits_bind; [apply emits_loop_head|]. intros [remaining|]; [|apply emits_ret].
  apply emits_bind; [apply emits_loop_body|]. intros [|]; [apply emits_ret|exact IH].
Qed.

Lemma polling_loop_cleanup_free cfg env fuel end_time max_runs soe computes w had w' tr :
  polling_loop cfg env fuel end_time max_runs soe computes w = Return had w' ->
  events w' = events w ++ tr ->
  cleanup_calls tr = 0%nat.
Proof.
  intros Hloop Hev.
  destruct (emits_Return _ _ _ _ _ (emits_polling_loop _ _ _ _ _ _ _) Hloop)
    as (tr' & Hev' & Htr').
  rewrite Hev in Hev'. apply app_inv_head in Hev'. subst tr'.
  apply (cleanup_free poll_event); [|exact Htr'].
  intros e He ->. exact He.
Qed.

Lemma echo_env_joined_is_final : joined_is_final echo_env.
Proof. intros k i s. reflexivity. Qed.

(** ** Termination of the workers *)

(** C4: [terminate_all_processes] always completes without raising, even
    when [terminate()] itself raises, and leaves every process joined; a
    second call right after the first completes as well, issues no
    [terminate()] at all (only joins, which return at once) and leaves the
    registry and the clock as the first call left them. *)
Theorem terminate_all_processes_idempotent env w :
  joined_is_final env ->
  exists w1 w2,
    terminate_all_processes env w = Return tt w1 /\
    Forall joined (processes w1) /\
    terminate_all_processes env w1 = Return tt w2 /\
    processes w2 = processes w1 /\
    now w2 = now w1 /\
    events w2 = events w1 ++ map EvJoin (seq 0 (length (processes w1))).
Proof.
  intros Hfin.
  destruct (terminate_all_processes_spec env w) as (w1 & Hrun1 & _ & _ & _ & Hall & _).
  specialize (Hall Hfin).
  destruct (terminate_all_processes_spec env w1)
    as (w2 & Hrun2 & Hnow & _ & (tr & Hev & _ & Htr) & _ & Hsame).
  exists w1, w2. repeat split; auto.
  rewrite Hev. f_equal. auto.
Qed.

(** On the registry [mixed], with [terminate()] raising. *)
Lemma terminate_all_processes_idempotent_witness :
  joined_is_final echo_env /\
  exists w1 w2,
    terminate_all_processes echo_env mixed = Return tt w1 /\
    Forall joined (processes w1) /\
    terminate_all_processes echo_env w1 = Return tt w2 /\
    processes w2 = processes w1 /\
    now w2 = now w1 /\
    events w2 = events w1 ++ map EvJoin (seq 0 (length (processes w1))).
Proof.
  split.
  - intros k i s. reflexivity.
  - apply (terminate_all_processes_idempotent echo_env mixed).
    intros k i s. reflexivity.
Defined.

(** ** Exit status and cleanup *)

(** C7: the report always completes; the status returned is 1 when
    [had_errors] is true at the [return] and 0 otherwise, and
    [cleanup.cleanup] is called once when [had_errors] is false and not at
    all when it is true.  The same holds of every run of [stress_openstack]
    that returns, counting the calls over the whole run. *)
Theorem exit_status_and_cleanup :
  (forall env had w,
     exists r w' tr,
       report env had w = Return r w' /\
       events w' = events w ++ tr /\
       exit_status r = (if had_errors (final r) then 1 else 0) /\
       cleanup_calls tr = (if had_errors (final r) then 0 else 1)%nat) /\
  (forall cfg env fuel tests duration max_runs soe w r w',
     stress_openstack cfg env fuel tests duration max_runs soe w = Return r w' ->
     exists tr,
       events w' = events w ++ tr /\
       exit_status r = (if had_errors (final r) then 1 else 0) /\
       cleanup_calls tr = (if had_errors (final r) then 0 else 1)%nat).
Proof.
  split.
  - intros env had w.
    destruct (report_outcome env had w) as (r & w' & tr & Hrep & Hev & _ & Hst & Hcl).
    exists r, w', tr. auto.
  - intros cfg env fuel tests duration max_runs soe w r w' Hrun.
    apply stress_openstack_inv in Hrun.
    destruct Hrun as (computes & ws & had & wl & tr_setup & Hevs & Hsetup & Hloop & Hrep).
    destruct (polling_loop_events _ _ _ _ _ _ _ _ _ _ Hloop) as (tr_poll & Hevl & Hquiet & Hloud).
    destruct (report_outcome env had wl) as (r0 & w0 & tr & Hrep0 & Hev & _ & Hst & Hcl).
    rewrite Hrep in Hrep0. injection Hrep0 as <- <-.
    exists (tr_setup ++ tr_poll ++ tr).
    split; [rewrite Hev, Hevl, Hevs; now rewrite <- !app_assoc|].
    split; [exact Hst|].
    rewrite !cleanup_calls_app, Hcl.
    rewrite (proj1 (plain_trace _ _ setup_event_plain Hsetup)).
    rewrite (polling_loop_cleanup_free _ _ _ _ _ _ _ _ _ _ _ Hloop Hevl). reflexivity.
Qed.

(** On the end-to-end scenario: three workers that never fail, for a duration of 2. *)
Lemma exit_status_and_cleanup_witness :
  exists r w',
    stress_openstack echo_cfg echo_env 5 echo_tests 2 None false fresh = Return r w' /\
    exists tr,
      events w' = events fresh ++ tr /\
      exit_status r = (if had_errors (final r) then 1 else 0) /\
      cleanup_calls tr = (if had_errors (final r) then 0 else 1)%nat.
Proof.
  eexists _, _. split.
  - vm_compute. reflexivity.
  - apply (proj2 exit_status_and_cleanup echo_cfg echo_env 5%nat echo_tests 2 None false fresh).
    vm_compute. reflexivity.
Defined.

(** The report when joined workers are gone for good: every value read is
    the one the registry held when [terminate_all_processes] completed. *)
Lemma report_joined env had w :
  joined_is_final env ->
  exists w1 w2 tr_stop,
    terminate_all_processes env w = Return tt w1 /\
    events w1 = events w ++ tr_stop /\ Forall stop_event tr_stop /\
    Forall joined (processes w1) /\
    let t := Totals (had || existsb failing (processes w1))
                    (total runs (processes w1)) (total fails (processes w1)) in
    report env had w = Return (RunReport (if had_errors t then 1 else 0) t) w2 /\
    processes w2 = processes w1 /\
    events w2 = events w1 ++ [EvInfoStatistics]
                  ++ map process_line (processes w1) ++ closing_events t.
Proof.
  intros Hfin.
  destruct (report_spec env had w)
    as (w1 & t & w2 & tr_stop & tr_lines & Hstop & Hev1 & Htr & Hall & Hrep & _ & _ & Hev2 & _ & Hj).
  destruct (Hj Hfin) as (Hps & Ht & Hlines).
  rewrite fold_tally in Ht. cbn [had_errors sum_runs sum_fails] in Ht.
  rewrite !Z.add_0_l in Ht. subst t tr_lines.
  exists w1, w2, tr_stop. cbn zeta. auto 10.
Qed.

(** C9: on leaving the polling loop, in whatever state, the driver first
    terminates and joins every process ([w1]: only terminations and joins
    have happened, every process is joined), and only then reads the
    statistics and writes the report.  Whatever the workers' environment
    does meanwhile, the registry does not change during the report, the
    lines reported are those of the registry at [w1], and the totals are
    its sums. *)
Theorem statistics_read_after_join env had w :
  joined_is_final env ->
  exists w1 r w2 tr_stop,
    terminate_all_processes env w = Return tt w1 /\
    events w1 = events w ++ tr_stop /\ Forall stop_event tr_stop /\
    Forall joined (processes w1) /\
    report env had w = Return r w2 /\
    processes w2 = processes w1 /\
    events w2 = events w1 ++ [EvInfoStatistics]
                  ++ map process_line (processes w1) ++ closing_events (final r) /\
    sum_runs (final r) = total runs (processes w1) /\
    sum_fails (final r) = total fails (processes w1).
Proof.
  intros Hfin.
  destruct (report_joined env had w Hfin)
    as (w1 & w2 & tr_stop & Hstop & Hev1 & Htr & Hall & Hrep & Hps & Hev2).
  eexists w1, _, w2, tr_stop.
  split; [exact Hstop|]. split; [exact Hev1|]. split; [exact Htr|]. split; [exact Hall|].
  split; [exact Hrep|]. split; [exact Hps|]. split; [exact Hev2|].
  split; reflexivity.
Qed.

(** On the registry [mixed], left by the loop without errors. *)
Lemma statistics_read_after_join_witness :
  joined_is_final echo_env /\
  exists w1 r w2 tr_stop,
    terminate_all_processes echo_env mixed = Return tt w1 /\
    events w1 = events mixed ++ tr_stop /\ Forall stop_event tr_stop /\
    Forall joined (processes w1) /\
    report echo_env false mixed = Return r w2 /\
    processes w2 = processes w1 /\
    events w2 = events w1 ++ [EvInfoStatistics]
                  ++ map process_line (processes w1) ++ closing_events (final r) /\
    sum_runs (final r) = total runs (processes w1) /\
    sum_fails (final r) = total fails (processes w1).
Proof.
  split.
  - intros k i s. reflexivity.
  - apply (statistics_read_after_join echo_env false mixed).
    intros k i s. reflexivity.
Defined.

(** The same seen from a whole run: whatever happened before (set-up and
    polling), the terminations and joins come next, and the report after
    them is that of the final registry, every process of which is joined. *)
Lemma stress_openstack_reports_after_join cfg env fuel tests duration max_runs soe w r w' :
  joined_is_final env ->
  stress_openstack cfg env fuel tests duration max_runs soe w = Return r w' ->
  exists tr_before tr_stop,
    events w' = events w ++ tr_before ++ tr_stop ++ [EvInfoStatistics]
                  ++ map process_line (processes w') ++ closing_events (final r) /\
    Forall (fun e => setup_event e \/ poll_event e) tr_before /\
    Forall stop_event tr_stop /\
    Forall joined (processes w') /\
    sum_runs (final r) = total runs (processes w') /\
    sum_fails (final r) = total fails (processes w').
Proof.
  intros Hfin Hrun.
  apply stress_openstack_inv in Hrun.
  destruct Hrun as (computes & ws & had & wl & tr_setup & Hevs & Hsetup & Hloop & Hrep).
  destruct (emits_Return _ _ _ _ _ (emits_polling_loop _ _ _ _ _ _ _) Hloop)
    as (tr_poll & Hevl & Hpoll).
  destruct (report_joined env had wl Hfin)
    as (w1 & w2 & tr_stop & _ & Hev1 & Htr & Hall & Hrep1 & Hps & Hev2).
  cbn zeta in Hrep1, Hev2. rewrite Hrep in Hrep1. injection Hrep1 as Hr Hw. subst w2 r.
  cbn [final sum_runs sum_fails].
  exists (tr_setup ++ tr_poll), tr_stop. rewrite Hps.
  split; [rewrite Hev2, Hev1, Hevl, Hevs, <- !app_assoc; reflexivity|].
  split.
  { apply Forall_app. split; (eapply Forall_impl; [eassumption|]); cbn; auto. }
  split; [exact Htr|]. split; [exact Hall|]. split; reflexivity.
Qed.

(** ** The exit status *)

(** C10: a run that returns has status 1 exactly when some process of the
    registry has [fails > 0] at the report or the polling loop logged an
    error found in the remote logs; otherwise the status is 0.  A failing
    worker thus gives status 1 and no cleanup whatever [stop_on_error] and
    the log configuration are. *)
Theorem exit_status_iff_failure cfg env fuel tests duration max_runs soe w r w' :
  joined_is_final env ->
  stress_openstack cfg env fuel tests duration max_runs soe w = Return r w' ->
  exists tr,
    events w' = events w ++ tr /\
    (exit_status r = 1 <-> existsb failing (processes w') = true \/ Exists log_error tr) /\
    (exit_status r = 1 \/ exit_status r = 0) /\
    (existsb failing (processes w') = true -> exit_status r = 1 /\ cleanup_calls tr = 0%nat).
Proof.
  intros Hfin Hrun.
  apply stress_openstack_inv in Hrun.
  destruct Hrun as (computes & ws & had & wl & tr_setup & Hevs & Hsetup & Hloop & Hrep).
  destruct (polling_loop_events _ _ _ _ _ _ _ _ _ _ Hloop) as (tr_poll & Hevl & Hquiet & Hloud).
  destruct (report_outcome env had wl) as (r0 & w0 & tr_rep & Hrep0 & Hev & Hnolog & Hst & Hcl).
  rewrite Hrep in Hrep0. injection Hrep0 as <- <-.
  destruct (report_joined env had wl Hfin)
    as (w1 & w2 & tr_stop & _ & _ & _ & _ & Hrep1 & Hps & _).
  cbn zeta in Hrep1. rewrite Hrep in Hrep1. injection Hrep1 as Hr Hw. subst w2.
  rewrite <- Hps in Hr.
  assert (Hhad : had_errors (final r) = had || existsb failing (processes w')).
  { rewrite Hr. reflexivity. }
  rewrite Hhad in Hst, Hcl. clear Hr Hhad Hps Hrep.
  destruct (plain_trace _ _ setup_event_plain Hsetup) as [Hc1 Hl1].
  exists (tr_setup ++ tr_poll ++ tr_rep).
  split; [rewrite Hev, Hevl, Hevs; now rewrite <- !app_assoc|].
  split; [|split].
  - rewrite Hst, !Exists_app. split.
    + destruct had; [intros _; right; right; left; auto|].
      destruct (existsb failing (processes w')); [auto|discriminate].
    + intros [->|[H|[H|H]]]; try contradiction.
      * now rewrite orb_true_r.
      * destruct had; [reflexivity|].
        destruct (proj2 (plain_trace _ _ quiet_poll_event_plain (Hquiet eq_refl)) H).
  - rewrite Hst. destruct (had || _); auto.
  - intros Hf. rewrite Hf, orb_true_r in Hst, Hcl. split; [exact Hst|].
    rewrite !cleanup_calls_app, Hc1, Hcl.
    now rewrite (polling_loop_cleanup_free _ _ _ _ _ _ _ _ _ _ _ Hloop Hevl).
Qed.

(** On three flaky workers, without [stop_on_error] and without watched logs. *)
Lemma exit_status_iff_failure_witness :
  joined_is_final flaky_env /\
  exists r w',
    stress_openstack echo_cfg flaky_env 5 echo_tests 2 None false fresh = Return r w' /\
    exists tr,
      events w' = events fresh ++ tr /\
      (exit_status r = 1 <-> existsb failing (processes w') = true \/ Exists log_error tr) /\
      (exit_status r = 1 \/ exit_status r = 0) /\
      (existsb failing (processes w') = true -> exit_status r = 1 /\ cleanup_calls tr = 0%nat).
Proof.
  split.
  - intros k i s. reflexivity.
  - eexists _, _. split.
    + vm_compute. reflexivity.
    + apply (exit_status_iff_failure echo_cfg flaky_env 5%nat echo_tests 2 None false fresh).
      * intros k i s. reflexivity.
      * vm_compute. reflexivity.
Defined.

(** ** The remote channel and the log monitor *)

Lemma has_credentials_false cfg :
  truthy (target_ssh_user cfg) = false \/ truthy (target_private_key_path cfg) = false ->
  has_credentials cfg = false.
Proof. unfold has_credentials. intros [-> | ->]; [reflexivity|apply andb_false_r]. Qed.

Lemma do_ssh_command_failed cfg env command host w :
  exec_command env (epoch w) host command = Failure SSHExecCommandFailed ->
  exists w', do_ssh cfg env command host w = Return None w' /\ now w' = now w.
Proof.
  intros Hfail. destruct (has_credentials cfg) eqn:Hc.
  - rewrite do_ssh_with_credentials by exact Hc. cbn zeta. rewrite Hfail. eauto.
  - rewrite do_ssh_without_credentials by exact Hc. eauto.
Qed.

(** C8: without a user name or without a key path, [do_ssh] returns [None]
    and does nothing at all (the world is unchanged: no command is sent),
    so that preparing the logs yields no node and a log scan finds nothing;
    when the remote side fails with [SSHExecCommandFailed], [do_ssh]
    returns [None] as well, the node listing is then empty and the log scan
    finds nothing.  None of these raises. *)
Theorem remote_channel_unavailable_or_failed cfg env w :
  (truthy (target_ssh_user cfg) = false \/ truthy (target_private_key_path cfg) = false ->
   (forall command host, do_ssh cfg env command host w = Return None w) /\
   prepare_logs cfg env w = Return [] w /\
   (forall logfiles nodes, _error_in_logs cfg env logfiles nodes w = Return None w)) /\
  (forall command host,
     exec_command env (epoch w) host command = Failure SSHExecCommandFailed ->
     exists w', do_ssh cfg env command host w = Return None w' /\ now w' = now w) /\
  (forall controller,
     exec_command env (epoch w) controller service_list_command = Failure SSHExecCommandFailed ->
     exists w', _get_compute_nodes cfg env controller w = Return [] w') /\
  (forall logfiles node rest,
     exec_command env (epoch w) node (grep_command logfiles) = Failure SSHExecCommandFailed ->
     exists w', _error_in_logs cfg env logfiles (node :: rest) w = Return None w').
Proof.
  split; [|split; [|split]].
  - intros Habsent. apply has_credentials_false in Habsent.
    split; [|split].
    + intros command host. now apply do_ssh_without_credentials.
    + now apply prepare_logs_without_credentials.
    + intros logfiles nodes. now apply error_scan_without_credentials.
  - intros command host. apply do_ssh_command_failed.
  - intros controller Hfail.
    destruct (do_ssh_command_failed cfg env _ _ _ Hfail) as (w' & Hssh & _).
    exists w'. unfold _get_compute_nodes. cbn zeta.
    erewrite bind_Return by exact Hssh. reflexivity.
  - intros logfiles node rest Hfail.
    destruct (do_ssh_command_failed cfg env _ _ _ Hfail) as (w' & Hssh & _).
    exists w'. unfold _error_in_logs. cbn [error_scan].
    erewrite bind_Return by exact Hssh. reflexivity.
Qed.

(** Without credentials, and with credentials on a channel that fails. *)
Lemma remote_channel_unavailable_or_failed_witness :
  ((forall command host, do_ssh echo_cfg echo_env command host fresh = Return None fresh) /\
   prepare_logs echo_cfg echo_env fresh = Return [] fresh /\
   (forall logfiles nodes,
      _error_in_logs echo_cfg echo_env logfiles nodes fresh = Return None fresh)) /\
  (exists w', do_ssh watched_cfg echo_env "uptime" "node1" fresh = Return None w' /\
              now w' = now fresh).
Proof.
  split.
  - apply (proj1 (remote_channel_unavailable_or_failed echo_cfg echo_env fresh)).
    left. reflexivity.
  - apply (proj1 (proj2 (remote_channel_unavailable_or_failed watched_cfg echo_env fresh))).
    reflexivity.
Defined.

(** C2: scanning the clean [node1] and then [node2] returns [None] after
    a single command, sent to [node1]; [node2], whose log does show an error
    (scanning it alone finds it), is never asked. *)
Theorem error_in_logs_stops_at_clean_node :
  _error_in_logs watched_cfg second_node_env "/var/log/nova/nova.log" ["node1"; "node2"] fresh
  = Return None
      (World 0 [] [EvExec "node1" (grep_command "/var/log/nova/nova.log")] 1) /\
  _error_in_logs watched_cfg second_node_env "/var/log/nova/nova.log" ["node2"] fresh
  = Return (Some "ERROR boom")
      (World 0 []
             [EvExec "node2" (grep_command "/var/log/nova/nova.log");
              EvLogError "node2" "ERROR boom"] 1).
Proof. split; vm_compute; reflexivity. Qed.

(** C3: on a listing with a line of three fields, enumerating the compute
    nodes raises [IndexError], and so does the whole run, before any worker
    is started. *)
Theorem get_compute_nodes_raises_on_short_line :
  _get_compute_nodes watched_cfg short_listing_env "controller" fresh
  = Raise IndexError (World 0 [] [EvExec "controller" service_list_command] 1) /\
  stress_openstack watched_cfg short_listing_env 5 echo_tests 2 None false fresh
  = Raise IndexError (World 0 [] [EvExec "controller" service_list_command] 1).
Proof. split; vm_compute; reflexivity. Qed.

(** C1: with [stop_on_error] set and a worker whose [fails] is positive
    from the first iteration on, the loop in duration mode keeps sleeping
    until [end_time] (three iterations for a duration of 3, not one), and in
    run-count mode it keeps polling as long as the worker lives. *)
Theorem stop_on_error_does_not_leave_the_loop :
  (exists w1,
     loop_body echo_cfg failing_env 3 true [] one_worker = Return false w1 /\
     existsb failing (processes w1) = true /\ now w1 = 1) /\
  (exists w3,
     polling_loop echo_cfg failing_env 4 3 None true [] one_worker = Return false w3 /\
     now w3 = 3 /\ events w3 = [EvSleep 1; EvSleep 1; EvSleep 1]) /\
  polling_loop echo_cfg failing_env 3 3 None true [] one_worker = OutOfFuel /\
  polling_loop echo_cfg failing_env 50 3 (Some 5) true [] one_worker = OutOfFuel.
Proof.
  split; [|split; [|split]].
  - eexists. split; [vm_compute; reflexivity|]. split; reflexivity.
  - eexists. split; [vm_compute; reflexivity|]. split; reflexivity.
  - vm_compute. reflexivity.
  - vm_compute. reflexivity.
Qed.

(** ** The polling loop without log errors *)

Lemma check_fails_loop env (m : nat) :
  forall (a : nat) (w : world),
    (a + m <= length (processes w))%nat ->
    exists w',
      for_each (seq a m) (check_fail env) w = Return tt w' /\
      now w' = now w /\
      length (processes w') = length (processes w).
Proof.
  induction m as [|m IH]; intros a w Hlen.
  - exists w. auto.
  - destruct (shared_get_total env a fails w) as [f Hf]; [lia|].
    cbn [seq for_each]. unfold check_fail at 1.
    erewrite bind_Return by (erewrite bind_Return by exact Hf; reflexivity).
    set (w1 := World _ _ _ _).
    assert (Hlen1 : length (processes w1) = length (processes w)).
    { unfold w1. cbn [processes]. apply progress_length. }
    destruct (0 <? f).
    + exists w1. auto.
    + destruct (IH (S a) w1) as (w' & Hrun & Hnow & Hl); [lia|].
      exists w'. split; [exact Hrun|]. split; [exact Hnow|congruence].
Qed.

Lemma check_fails_total env w :
  exists w',
    check_fails env w = Return tt w' /\
    now w' = now w /\
    length (processes w') = length (processes w).
Proof. apply (check_fails_loop env (length (processes w)) 0 w). reflexivity. Qed.

Lemma error_scan_no_hit cfg env grep nodes w :
  (has_credentials cfg = false \/
   forall k node, silent (exec_command env k node grep) = true) ->
  exists w',
    error_scan cfg env grep nodes w = Return None w' /\
    now w' = now w /\
    length (processes w') = length (processes w).
Proof.
  intros Hquiet. destruct nodes as [|node rest]; [exists w; auto|].
  rewrite error_scan_first_node. cbn [error_scan].
  destruct (has_credentials cfg) eqn:Hc.
  - destruct Hquiet as [Hq|Hq]; [discriminate|]. specialize (Hq (epoch w) node).
    unfold bind. rewrite do_ssh_with_credentials by exact Hc. cbn zeta.
    destruct (exec_command env (epoch w) node grep) as [[|c s]|[]]; try discriminate;
      (eexists; split; [reflexivity|]; split; [reflexivity|apply progress_length]).
  - erewrite bind_Return by (apply do_ssh_without_credentials; exact Hc).
    exists w. auto.
Qed.

(** Without log errors an iteration sleeps and goes round again. *)
Lemma loop_body_no_hit cfg env remaining soe computes w :
  no_log_hit cfg env ->
  0 <= Z.min remaining (log_check_interval cfg) ->
  exists w',
    loop_body cfg env remaining soe computes w = Return false w' /\
    now w' = now w + Z.min remaining (log_check_interval cfg) /\
    length (processes w') = length (processes w).
Proof.
  intros Hquiet Hd. unfold loop_body.
  set (d := Z.min remaining (log_check_interval cfg)) in *.
  unfold bind at 1. unfold time_sleep at 1.
  destruct (d <? 0) eqn:E; [lia|].
  set (w1 := World _ _ _ _).
  assert (H1 : now w1 = now w + d /\ length (processes w1) = length (processes w)).
  { unfold w1. cbn [now processes]. split; [reflexivity|apply progress_length]. }
  destruct H1 as [Hnow1 Hlen1].
  assert (Hc : exists w2, (if soe then check_fails env else ret tt) w1 = Return tt w2 /\
                          now w2 = now w1 /\
                          length (processes w2) = length (processes w1)).
  { destruct soe; [apply check_fails_total|exists w1; auto]. }
  destruct Hc as (w2 & Hcheck & Hnow2 & Hlen2).
  erewrite bind_Return by exact Hcheck.
  destruct (truthy (target_logfiles cfg)) eqn:Hlog; cbn [negb].
  - destruct Hquiet as [Hq|Hq]; [congruence|].
    destruct (error_scan_no_hit cfg env _ computes w2 Hq) as (w3 & Hscan & Hnow3 & Hlen3).
    unfold _error_in_logs. erewrite bind_Return by exact Hscan.
    exists w3. split; [reflexivity|]. split; congruence.
  - exists w2. split; [reflexivity|]. split; congruence.
Qed.

(** ** Run-count mode *)

Lemma run_count_head cfg end_time N w :
  loop_head cfg end_time (Some N) w =
    Return (if any_alive w then Some (log_check_interval cfg) else None) w.
Proof.
  unfold loop_head, any_alive, bind, get_processes.
  destruct (existsb is_alive (processes w)); reflexivity.
Qed.

Lemma run_count_loop cfg env N soe computes end_time (n : nat) :
  0 <= log_check_interval cfg ->
  no_log_hit cfg env ->
  forall w,
    exists wn,
      after_ticks cfg env soe computes n w = Return tt wn /\
      now wn = now w + Z.of_nat n * log_check_interval cfg /\
      ((forall k wk, (k < n)%nat ->
                     after_ticks cfg env soe computes k w = Return tt wk ->
                     any_alive wk = true) ->
       (any_alive wn = false ->
        forall fuel, (n < fuel)%nat ->
          polling_loop cfg env fuel end_time (Some N) soe computes w = Return false wn) /\
       (any_alive wn = true ->
        forall fuel, (fuel <= S n)%nat ->
          polling_loop cfg env fuel end_time (Some N) soe computes w = OutOfFuel)).
Proof.
  intros Hlci Hquiet. induction n as [|n IH]; intros w.
  - exists w. split; [reflexivity|]. split; [lia|]. intros _. split.
    + intros Hdead [|fuel] Hfuel; [lia|].
      cbn [polling_loop]. erewrite bind_Return by apply run_count_head.
      now rewrite Hdead.
    + intros Halive [|[|fuel]] Hfuel; [reflexivity| |lia].
      cbn [polling_loop]. erewrite bind_Return by apply run_count_head.
      rewrite Halive.
      destruct (loop_body_no_hit cfg env (log_check_interval cfg) soe computes w Hquiet)
        as (w1 & Hbody & _); [lia|].
      erewrite bind_Return by exact Hbody. reflexivity.
  - destruct (loop_body_no_hit cfg env (log_check_interval cfg) soe computes w Hquiet)
      as (w1 & Hbody & Hnow1 & _); [lia|].
    destruct (IH w1) as (wn & Hticks & Hnow & Hloop).
    exists wn. cbn [after_ticks]. erewrite bind_Return by exact Hbody.
    split; [exact Hticks|]. split; [rewrite Z.min_id in Hnow1; lia|].
    intros Hbefore.
    assert (Halive : any_alive w = true) by (apply (Hbefore 0%nat w); [lia|reflexivity]).
    destruct Hloop as [Hstop Hgo].
    { intros k wk Hk Hwk. apply (Hbefore (S k) wk); [lia|].
      cbn [after_ticks]. erewrite bind_Return by exact Hbody. exact Hwk. }
    split.
    + intros Hdead [|fuel] Hfuel; [lia|].
      cbn [polling_loop]. erewrite bind_Return by apply run_count_head.
      rewrite Halive. erewrite bind_Return by exact Hbody.
      apply Hstop; [exact Hdead|lia].
    + intros Hlive [|fuel] Hfuel; [reflexivity|].
      cbn [polling_loop]. erewrite bind_Return by apply run_count_head.
      rewrite Halive. erewrite bind_Return by exact Hbody.
      apply Hgo; [exact Hlive|lia].
Qed.

(** C6 (amended): in run-count mode, with a non-negative
    [log_check_interval] and no error found in the logs, the world [wn] at
    the [n]-th repetition of the test of the workers is reached after [n]
    sleeps of [log_check_interval]; if some worker was alive at every
    earlier test, the loop is left at [wn], with [had_errors] false, when no
    worker is alive there, and goes on polling when one is.  This is so for
    every [end_time]: the duration plays no part. *)
Theorem run_count_mode_stops_when_workers_exited cfg env N soe computes end_time n w :
  0 <= log_check_interval cfg ->
  no_log_hit cfg env ->
  exists wn,
    after_ticks cfg env soe computes n w = Return tt wn /\
    now wn = now w + Z.of_nat n * log_check_interval cfg /\
    ((forall k wk, (k < n)%nat ->
                   after_ticks cfg env soe computes k w = Return tt wk ->
                   any_alive wk = true) ->
     (any_alive wn = false ->
      forall fuel, (n < fuel)%nat ->
        polling_loop cfg env fuel end_time (Some N) soe computes w = Return false wn) /\
     (any_alive wn = true ->
      forall fuel, (fuel <= S n)%nat ->
        polling_loop cfg env fuel end_time (Some N) soe computes w = OutOfFuel)).
Proof.
  intros Hlci Hquiet. now apply run_count_loop.
Qed.

(** On a worker that exits after three runs, with an [end_time] already reached at the start. *)
Lemma run_count_mode_stops_when_workers_exited_witness :
  exists wn,
    polling_loop echo_cfg three_runs_env 4 0 (Some 3) false [] one_worker = Return false wn /\
    any_alive wn = false /\
    now wn = 3.
Proof.
  destruct (run_count_mode_stops_when_workers_exited
              echo_cfg three_runs_env 3 false [] 0 3 one_worker)
    as (wn & Hticks & Hnow & Hloop).
  - vm_compute. discriminate.
  - left. reflexivity.
  - vm_compute in Hticks. injection Hticks as <-.
    eexists. split.
    + refine (proj1 (Hloop _) eq_refl 4%nat _); [|lia].
      intros k wk Hk Hwk.
      destruct k as [|[|[|k]]]; try lia; vm_compute in Hwk; injection Hwk as <-; reflexivity.
    + split; reflexivity.
Defined.

(** C6 as stated fails: with [max_runs] set and an error in the watched
    log, the loop is left after the first sleep while the worker is still
    running. *)
Lemma run_count_mode_log_error_counterexample :
  exists w',
    polling_loop watched_cfg log_error_env 20 (now one_worker + 10) (Some 5) false ["node1"]
                 one_worker = Return true w' /\
    any_alive w' = true.
Proof.
  eexists. split; [vm_compute; reflexivity|reflexivity].
Qed.

(** * Further properties of the driver *)

(** ** More on the monad *)

Lemma bind_Raise_inv {A B : Type} (m : M A) (k : A -> M B) (w w2 : world) (e : exn) :
  bind m k w = Raise e w2 ->
  m w = Raise e w2 \/ exists a w1, m w = Return a w1 /\ k a w1 = Raise e w2.
Proof.
  unfold bind. destruct (m w) as [a w1|e1 w1|]; intros H; try discriminate.
  - right. exists a, w1. split; [reflexivity | exact H].
  - injection H as -> ->. left. reflexivity.
Qed.

Lemma emits_Raise {A : Type} (P : event -> Prop) (m : M A) w e w' :
  emits P m -> m w = Raise e w' ->
  exists tr, events w' = events w ++ tr /\ Forall P tr.
Proof. intros Hm Hrun. specialize (Hm w). now rewrite Hrun in Hm. Qed.

Section Preserves.

Variable R : world -> world -> Prop.
Hypothesis R_refl : forall w, R w w.
Hypothesis R_trans : forall w1 w2 w3, R w1 w2 -> R w2 w3 -> R w1 w3.

Lemma preserves_ret {A : Type} (a : A) : preserves R (ret a).
Proof. intros w. apply R_refl. Qed.

Lemma preserves_raise {A : Type} (e : exn) : preserves R (@raise A e).
Proof. intros w. apply R_refl. Qed.

Lemma preserves_bind {A B : Type} (m : M A) (k : A -> M B) :
  preserves R m -> (forall a, preserves R (k a)) -> preserves R (bind m k).
Proof.
  intros Hm Hk w. unfold bind. specialize (Hm w).
  destruct (m w) as [a w1|e w1|]; [|exact Hm|exact I].
  specialize (Hk a w1). destruct (k a w1); try exact I; eapply R_trans; eassumption.
Qed.

Lemma preserves_for_each {A : Type} (xs : list A) (body : A -> M bool) :
  (forall x, preserves R (body x)) -> preserves R (for_each xs body).
Proof.
  intros Hbody. induction xs as [|x xs IH]; cbn [for_each].
  - apply preserves_ret.
  - apply preserves_bind; [apply Hbody|]. intros [|]; [apply preserves_ret|exact IH].
Qed.

Lemma preserves_for_fold {A S : Type} (xs : list A) (body : A -> S -> M S) :
  (forall x s, preserves R (body x s)) -> forall s, preserves R (for_fold xs body s).
Proof.
  intros Hbody. induction xs as [|x xs IH]; intros s; cbn [for_fold].
  - apply preserves_ret.
  - apply preserves_bind; [apply Hbody|]. intros s'. apply IH.
Qed.

Lemma preserves_lift {A : Type} (r : result A) : preserves R (lift r).
Proof. intros w. destruct r; apply R_refl. Qed.

Lemma preserves_try_pass (m : M unit) : preserves R m -> preserves R (try_pass m).
Proof. intros Hm w. unfold try_pass. specialize (Hm w). destruct (m w); exact Hm. Qed.

End Preserves.

Lemma preserves_Return {A : Type} (R : world -> world -> Prop) (m : M A) w a w' :
  preserves R m -> m w = Return a w' -> R w w'.
Proof. intros Hm Hrun. specialize (Hm w). now rewrite Hrun in Hm. Qed.

Lemma preserves_Raise {A : Type} (R : world -> world -> Prop) (m : M A) w e w' :
  preserves R m -> m w = Raise e w' -> R w w'.
Proof. intros Hm Hrun. specialize (Hm w). now rewrite Hrun in Hm. Qed.

Lemma same_clock_trans w1 w2 w3 : same_clock w1 w2 -> same_clock w2 w3 -> same_clock w1 w3.
Proof. unfold same_clock. congruence. Qed.

Lemma same_labels_trans w1 w2 w3 : same_labels w1 w2 -> same_labels w2 w3 -> same_labels w1 w3.
Proof. unfold same_labels. congruence. Qed.

Lemma imap_labels (ps : list process) :
  forall f : nat -> process -> process,
    (forall i p, label (f i p) = label p) ->
    (label <$> imap f ps) = (label <$> ps).
Proof.
  induction ps as [|p ps IH]; intros f Hf; [reflexivity|].
  cbn. rewrite Hf. f_equal. apply IH. intros i q. apply Hf.
Qed.

Lemma progress_labels env k (ps : list process) :
  (label <$> progress env k ps) = (label <$> ps).
Proof. apply imap_labels. intros i p. reflexivity. Qed.

Lemma join_labels (i : nat) (ps : list process) :
  (label <$> alter (set_handle Joined) i ps) = (label <$> ps).
Proof.
  revert i. induction ps as [|p ps IH]; intros [|i]; cbn; try reflexivity.
  f_equal. apply IH.
Qed.

(** ** What the operations leave alone *)

Section Quiet.

(** Any relation that holds when the clock and the entries of the registry
    are unchanged. *)
Variable cfg : config.
Variable env : environment.
Variable R : world -> world -> Prop.
Hypothesis R_trans : forall w1 w2 w3, R w1 w2 -> R w2 w3 -> R w1 w3.
Hypothesis R_quiet : forall w w', same_clock w w' -> same_labels w w' -> R w w'.

Lemma R_quiet_refl w : R w w.
Proof. apply R_quiet; reflexivity. Qed.

Lemma preserves_emit e : preserves R (emit e).
Proof. intros w. apply R_quiet; reflexivity. Qed.

Lemma preserves_get_processes : preserves R get_processes.
Proof. intros w. apply R_quiet_refl. Qed.

Lemma preserves_time_time : preserves R time_time.
Proof. intros w. apply R_quiet_refl. Qed.

Lemma preserves_registry_get i : preserves R (registry_get i).
Proof. intros w. unfold registry_get. destruct (processes w !! i); apply R_quiet_refl. Qed.

Lemma preserves_shared_get i key : preserves R (shared_get env i key).
Proof.
  intros w. unfold shared_get. cbn zeta.
  destruct (progress env (epoch w) (processes w) !! i);
    (apply R_quiet; [reflexivity|apply progress_labels]).
Qed.

Lemma preserves_ssh_exec_command host command : preserves R (ssh_exec_command env host command).
Proof. intros w. apply R_quiet; [reflexivity|apply progress_labels]. Qed.

Lemma preserves_process_terminate i : preserves R (process_terminate env i).
Proof.
  intros w. unfold process_terminate. cbn zeta.
  destruct (terminate_raises env (epoch w) i); apply R_quiet; reflexivity.
Qed.

Lemma preserves_process_join i : preserves R (process_join env i).
Proof.
  intros w. apply R_quiet; [reflexivity|].
  unfold same_labels. cbn [processes]. now rewrite join_labels, progress_labels.
Qed.

Lemma preserves_setUp a : preserves R (setUp env a).
Proof.
  intros w. unfold setUp. cbn zeta.
  destruct (setUp_raises env (epoch w) a); apply R_quiet; reflexivity.
Qed.

Lemma preserves_do_ssh command host : preserves R (do_ssh cfg env command host).
Proof.
  unfold do_ssh. destruct (negb _); [apply preserves_ret, R_quiet_refl|].
  apply preserves_bind; [exact R_trans|apply preserves_ssh_exec_command|].
  intros [out|[]]; (first [apply preserves_ret | apply preserves_raise]); apply R_quiet_refl.
Qed.

Lemma preserves_get_compute_nodes controller :
  preserves R (_get_compute_nodes cfg env controller).
Proof.
  unfold _get_compute_nodes. apply preserves_bind; [exact R_trans|apply preserves_do_ssh|].
  intros [[|c s]|]; try (apply preserves_ret, R_quiet_refl).
  apply preserves_lift, R_quiet_refl.
Qed.

Lemma preserves_error_in_logs logfiles nodes :
  preserves R (_error_in_logs cfg env logfiles nodes).
Proof.
  unfold _error_in_logs. generalize (grep_command logfiles). intros grep.
  induction nodes as [|node rest IH]; cbn [error_scan]; [apply preserves_ret, R_quiet_refl|].
  apply preserves_bind; [exact R_trans|apply preserves_do_ssh|].
  intros [[|c s]|]; try (apply preserves_ret, R_quiet_refl).
  destruct (0 <? len (String c s)); [|exact IH].
  apply preserves_bind; [exact R_trans|apply preserves_emit|].
  intros; apply preserves_ret, R_quiet_refl.
Qed.

Lemma preserves_prepare_logs : preserves R (prepare_logs cfg env).
Proof.
  unfold prepare_logs. destruct (truthy _); [|apply preserves_ret, R_quiet_refl].
  apply preserves_bind; [exact R_trans|apply preserves_get_compute_nodes|]. intros computes.
  apply preserves_bind; [exact R_trans| |intros; apply preserves_ret, R_quiet_refl].
  apply preserves_for_each; [exact R_quiet_refl|exact R_trans|]. intros node.
  apply preserves_bind; [exact R_trans|apply preserves_do_ssh|].
  intros; apply preserves_ret, R_quiet_refl.
Qed.

Lemma preserves_check_fails : preserves R (check_fails env).
Proof.
  unfold check_fails. apply preserves_bind; [exact R_trans|apply preserves_get_processes|].
  intros ps. apply preserves_for_each; [exact R_quiet_refl|exact R_trans|]. intros i.
  unfold check_fail. apply preserves_bind; [exact R_trans|apply preserves_shared_get|].
  intros; apply preserves_ret, R_quiet_refl.
Qed.

Lemma preserves_loop_head end_time max_runs : preserves R (loop_head cfg end_time max_runs).
Proof.
  intros w. destruct (loop_head cfg end_time max_runs w) as [head w'|e w'|] eqn:E; [| |exact I].
  - apply loop_head_world in E. subst. apply R_quiet_refl.
  - unfold loop_head in E. destruct max_runs; cbn in E.
    + destruct (negb _) in E; discriminate.
    + destruct (_ <=? _) in E; discriminate.
Qed.

Lemma preserves_terminate_all_processes : preserves R (terminate_all_processes env).
Proof.
  unfold terminate_all_processes.
  apply preserves_bind; [exact R_trans|apply preserves_get_processes|]. intros ps.
  apply preserves_for_each; [exact R_quiet_refl|exact R_trans|]. intros i.
  unfold terminate_and_join.
  apply preserves_bind; [exact R_trans|apply preserves_registry_get|]. intros p.
  apply preserves_bind; [exact R_trans| |].
  { destruct (is_alive p); [|apply preserves_ret, R_quiet_refl].
    apply preserves_try_pass, preserves_process_terminate. }
  intros _. apply preserves_bind; [exact R_trans|apply preserves_process_join|].
  intros; apply preserves_ret, R_quiet_refl.
Qed.

Lemma preserves_report had : preserves R (report env had).
Proof.
  unfold report.
  apply preserves_bind; [exact R_trans|apply preserves_terminate_all_processes|]. intros _.
  apply preserves_bind; [exact R_trans|apply preserves_emit|]. intros _.
  apply preserves_bind; [exact R_trans|apply preserves_get_processes|]. intros ps.
  apply preserves_bind; [exact R_trans| |].
  { apply preserves_for_fold; [exact R_quiet_refl|exact R_trans|]. intros i t.
    unfold report_process.
    repeat (apply preserves_bind;
            [exact R_trans
            |first [apply preserves_shared_get|apply preserves_registry_get|apply preserves_emit]
            |intros ?]).
    apply preserves_ret, R_quiet_refl. }
  intros t.
  apply preserves_bind; [exact R_trans|apply preserves_emit|]. intros _.
  apply preserves_bind; [exact R_trans|apply preserves_emit|]. intros _.
  apply preserves_bind; [exact R_trans| |].
  { destruct (negb _); [|apply preserves_ret, R_quiet_refl].
    apply preserves_bind; [exact R_trans|apply preserves_emit|]. intros _.
    apply preserves_emit. }
  intros _. destruct (had_errors t); apply preserves_ret, R_quiet_refl.
Qed.

End Quiet.

(** ** The clock of the polling loop *)

(** An iteration that completes has slept [min(remaining,
    log_check_interval)], which is not negative, and nothing else has moved
    the clock. *)
Lemma loop_body_clock cfg env remaining soe computes w found w' :
  loop_body cfg env remaining soe computes w = Return found w' ->
  0 <= Z.min remaining (log_check_interval cfg) /\
  now w' = now w + Z.min remaining (log_check_interval cfg).
Proof.
  unfold loop_body. intros Hrun.
  apply bind_inv in Hrun. destruct Hrun as ([] & w1 & Hsleep & Hrun).
  unfold time_sleep in Hsleep.
  destruct (Z.min remaining (log_check_interval cfg) <? 0) eqn:E; [discriminate|].
  injection Hsleep as <-.
  assert (Hrest : same_clock
                    (World (now w + Z.min remaining (log_check_interval cfg))
                           (progress env (epoch w) (processes w))
                           (events w ++ [EvSleep (Z.min remaining (log_check_interval cfg))])
                           (S (epoch w))) w').
  { refine (preserves_Return same_clock _ _ _ _ _ Hrun).
    apply preserves_bind; [exact same_clock_trans| |].
    - destruct soe; [|apply preserves_ret; reflexivity].
      apply preserves_check_fails; [exact same_clock_trans|auto].
    - intros _. destruct (negb _); [apply preserves_ret; reflexivity|].
      apply preserves_bind; [exact same_clock_trans| |intros; apply preserves_ret; reflexivity].
      apply preserves_error_in_logs; [exact same_clock_trans|auto]. }
  unfold same_clock in Hrest. cbn [now] in Hrest. split; [lia|exact Hrest].
Qed.

(** ** Duration mode on the wall clock *)

Lemma elapsed_zero (k : nat) : elapsed (fun _ => 0) k = 0.
Proof. induction k as [|k IH]; cbn; lia. Qed.



(** With no latency the wall clock is the idealised clock, and the loop on
    the wall clock is [polling_loop]. *)
Lemma timed_polling_loop_ideal cfg env (fuel : nat) end_time max_runs soe computes :
  forall w,
    timed_polling_loop (fun _ => 0) cfg env fuel end_time max_runs soe computes w
    = polling_loop cfg env fuel end_time max_runs soe computes w.
Proof.
  induction fuel as [|fuel IH]; intros w; [reflexivity|].
  cbn [timed_polling_loop polling_loop].
  assert (Hhead : timed_loop_head (fun _ => 0) cfg end_time max_runs w
                  = loop_head cfg end_time max_runs w).
  { destruct max_runs; [reflexivity|].
    unfold timed_loop_head, loop_head, bind, wall_time, time_time, wall.
    now rewrite elapsed_zero, Z.add_0_r. }
  unfold bind at 1 3. rewrite Hhead.
  destruct (loop_head cfg end_time max_runs w) as [[remaining|] w1| |]; try reflexivity.
  unfold bind.
  destruct (loop_body cfg env remaining soe computes w1) as [[|] w2| |]; try reflexivity.
  apply IH.
Qed.


(** *** What a tick does to the epoch and to the workers *)

Section Ticks.

Variable cfg : config.
Variable env : environment.
Variable R : world -> world -> Prop.
Hypothesis R_trans : forall w1 w2 w3, R w1 w2 -> R w2 w3 -> R w1 w3.
Hypothesis R_local : forall w n ev, R w (World n (processes w) ev (epoch w)).
Hypothesis R_block :
  forall w n ev, R w (World n (progress env (epoch w) (processes w)) ev (S (epoch w))).

Lemma R_local_refl w : R w w.
Proof. destruct w as [n ps ev k]. apply (R_local (World n ps ev k)). Qed.

Lemma ticks_time_sleep d : preserves R (time_sleep env d).
Proof.
  intros w. unfold time_sleep. destruct (d <? 0); [apply R_local_refl|apply R_block].
Qed.





End Ticks.












(** ** Run-count mode, whatever the logs show *)

(** X2: in run-count mode the loop, when it is left, has slept a whole
    number of times [log_check_interval], and if it was left without a log
    error no process of the registry is alive. *)
Theorem run_count_mode_exit cfg env (fuel : nat) end_time N soe computes :
  forall w had w',
    polling_loop cfg env fuel end_time (Some N) soe computes w = Return had w' ->
    (exists k : nat, now w' = now w + Z.of_nat k * log_check_interval cfg) /\
    (had = false -> any_alive w' = false).
Proof.
  induction fuel as [|fuel IH]; intros w had w' Hrun; [discriminate|].
  cbn [polling_loop] in Hrun.
  erewrite bind_Return in Hrun by apply run_count_head.
  destruct (any_alive w) eqn:Halive.
  - apply bind_inv in Hrun. destruct Hrun as (found & w1 & Hbody & Hrun).
    destruct (loop_body_clock _ _ _ _ _ _ _ _ Hbody) as [Hd Hnow1].
    rewrite Z.min_id in Hnow1.
    destruct found.
    + injection Hrun as <- <-. split; [exists 1%nat; lia|discriminate].
    + destruct (IH _ _ _ Hrun) as ([k Hk] & Hdead).
      split; [exists (S k); lia|exact Hdead].
  - injection Hrun as <- <-. split; [exists 0%nat; lia|auto].
Qed.

(** On the worker that exits after three runs. *)
Lemma run_count_mode_exit_witness :
  exists w',
    polling_loop echo_cfg three_runs_env 4 0 (Some 3) false [] one_worker = Return false w' /\
    (exists k : nat, now w' = now one_worker + Z.of_nat k * log_check_interval echo_cfg) /\
    (false = false -> any_alive w' = false).
Proof.
  eexists. split; [vm_compute; reflexivity|].
  apply (run_count_mode_exit echo_cfg three_runs_env 4 0 3 false [] one_worker false).
  vm_compute. reflexivity.
Defined.

(** ** The service listing *)

Lemma active_nodes_listed (lines : list string) :
  forall nodes,
    Forall well_formed_line lines ->
    active_nodes lines nodes = Ok (nodes ++ flat_map listed lines).
Proof.
  induction lines as [|l rest IH]; intros nodes Hall.
  - cbn. now rewrite app_nil_r.
  - inversion Hall as [|? ? Hl Hrest]; subst. cbn [active_nodes flat_map]. unfold listed at 1.
    destruct (0 <? Z.of_nat (length (split_ws l))) eqn:E.
    + destruct Hl as [Hl|Hl]; [rewrite Hl in E; discriminate|].
      destruct (lookup_lt_is_Some_2 (split_ws l) 4) as [status Hs]; [lia|].
      destruct (lookup_lt_is_Some_2 (split_ws l) 1) as [name Hn]; [lia|].
      rewrite Hs, Hn.
      destruct (String.eqb status ":-)").
      * rewrite IH by exact Hrest. now rewrite <- app_assoc.
      * now apply IH.
    + assert (Hz : length (split_ws l) = 0%nat) by lia.
      rewrite (lookup_ge_None_2 (split_ws l) 4) by lia.
      now apply IH.
Qed.

(** X3: when every line of the service listing has no field or at least
    five, [_get_compute_nodes] sends the one listing command and returns, in
    the order of the lines, the second field of each line whose fifth field
    is [":-)"]; an empty output gives no node. *)
Theorem get_compute_nodes_well_formed cfg env controller w out :
  has_credentials cfg = true ->
  exec_command env (epoch w) controller service_list_command = Output out ->
  Forall well_formed_line (split_on newline out) ->
  exists w',
    _get_compute_nodes cfg env controller w
    = Return (flat_map listed (split_on newline out)) w' /\
    events w' = events w ++ [EvExec controller service_list_command].
Proof.
  intros Hc Hout Hall. unfold _get_compute_nodes. cbn zeta.
  unfold bind. rewrite do_ssh_with_credentials by exact Hc. cbn zeta. rewrite Hout.
  destruct out as [|c s].
  - eexists. split; reflexivity.
  - unfold lift. rewrite active_nodes_listed by exact Hall.
    eexists. split; reflexivity.
Qed.

Lemma get_compute_nodes_well_formed_witness :
  exists w',
    _get_compute_nodes watched_cfg full_listing_env "controller" fresh
    = Return ["xg11eth0"; "xg13eth0"] w' /\
    events w' = events fresh ++ [EvExec "controller" service_list_command].
Proof.
  apply (get_compute_nodes_well_formed watched_cfg full_listing_env "controller" fresh
           full_listing).
  - reflexivity.
  - reflexivity.
  - vm_compute. repeat constructor; lia.
Defined.

(** X4: when some line of the service listing has between one and four
    fields, wherever it stands, [_get_compute_nodes] raises [IndexError]. *)
Theorem get_compute_nodes_short_line cfg env controller w out line :
  has_credentials cfg = true ->
  exec_command env (epoch w) controller service_list_command = Output out ->
  In line (split_on newline out) ->
  (0 < length (split_ws line) <= 4)%nat ->
  exists w', _get_compute_nodes cfg env controller w = Raise IndexError w'.
Proof.
  intros Hc Hout Hin Hlen. unfold _get_compute_nodes. cbn zeta.
  unfold bind. rewrite do_ssh_with_credentials by exact Hc. cbn zeta. rewrite Hout.
  destruct out as [|c s].
  - cbn in Hin. destruct Hin as [<-|[]]. cbn in Hlen. lia.
  - unfold lift. rewrite (active_nodes_short_line _ [] line Hin Hlen).
    eexists. reflexivity.
Qed.

Lemma get_compute_nodes_short_line_witness :
  exists w',
    _get_compute_nodes watched_cfg short_listing_env "controller" fresh = Raise IndexError w'.
Proof.
  apply (get_compute_nodes_short_line watched_cfg short_listing_env "controller" fresh
           short_listing "nova-compute xg12eth0 nova").
  - reflexivity.
  - reflexivity.
  - vm_compute. right. left. reflexivity.
  - vm_compute. lia.
Defined.

(** ** The log scan *)

(** X5: a log scan that completes has sent at most one command, the search
    on the first node of the list.  If it returns errors, they are not
    empty and have been logged once, for that node; if it returns [None],
    nothing is logged. *)
Theorem error_in_logs_outcome cfg env logfiles nodes w o w' :
  _error_in_logs cfg env logfiles nodes w = Return o w' ->
  match o with
  | Some errors =>
      errors <> EmptyString /\
      exists node rest,
        nodes = node :: rest /\
        events w' = events w ++ [EvExec node (grep_command logfiles); EvLogError node errors]
  | None =>
      events w' = events w \/
      exists node rest,
        nodes = node :: rest /\
        events w' = events w ++ [EvExec node (grep_command logfiles)]
  end.
Proof.
  unfold _error_in_logs. destruct nodes as [|node rest].
  - cbn. intros [= <- <-]. left. reflexivity.
  - rewrite error_scan_first_node. cbn [error_scan]. unfold bind.
    destruct (has_credentials cfg) eqn:Hc.
    + rewrite do_ssh_with_credentials by exact Hc. cbn zeta.
      destruct (exec_command env (epoch w) node (grep_command logfiles)) as [[|c s]|[]];
        cbn; intros H; try discriminate; injection H as <- <-; cbn [events].
      * right. eauto.
      * split; [discriminate|]. exists node, rest. split; [reflexivity|].
        now rewrite <- app_assoc.
      * right. eauto.
    + rewrite do_ssh_without_credentials by exact Hc.
      intros [= <- <-]. left. reflexivity.
Qed.

(** On the two nodes of which the second has errors: scanning from the
    second. *)
Lemma error_in_logs_outcome_witness :
  exists w',
    _error_in_logs watched_cfg second_node_env "/var/log/nova/nova.log" ["node2"; "node1"] fresh
    = Return (Some "ERROR boom") w' /\
    "ERROR boom" <> EmptyString /\
    exists node rest,
      ["node2"; "node1"] = node :: rest /\
      events w' = events fresh ++ [EvExec node (grep_command "/var/log/nova/nova.log");
                                   EvLogError node "ERROR boom"].
Proof.
  eexists. split; [vm_compute; reflexivity|].
  apply (error_in_logs_outcome watched_cfg second_node_env "/var/log/nova/nova.log"
           ["node2"; "node1"] fresh (Some "ERROR boom")).
  vm_compute. reflexivity.
Defined.

(** ** Exceptions *)

Lemma raises_within_emits {A : Type} (P : event -> Prop) (m : M A) :
  emits P m -> raises_within P m.
Proof. intros Hm w e w' Hrun. eapply emits_Raise; eassumption. Qed.

Lemma raises_within_bind {A B : Type} (P : event -> Prop) (m : M A) (k : A -> M B) :
  emits P m -> (forall a, raises_within P (k a)) -> raises_within P (bind m k).
Proof.
  intros Hm Hk w e w' Hrun. apply bind_Raise_inv in Hrun.
  destruct Hrun as [Hrun|(a & w1 & Hrun & Hk1)].
  - eapply emits_Raise; eassumption.
  - destruct (emits_Return _ _ _ _ _ Hm Hrun) as (tr1 & Hev1 & Htr1).
    destruct (Hk a w1 e w' Hk1) as (tr2 & Hev2 & Htr2).
    exists (tr1 ++ tr2). split; [rewrite Hev2, Hev1; now rewrite app_assoc|].
    now apply Forall_app.
Qed.

Lemma report_never_raises env had w e w' : report env had w <> Raise e w'.
Proof.
  destruct (report_outcome env had w) as (r & w2 & tr & Hrep & _). rewrite Hrep. discriminate.
Qed.

Lemma stress_openstack_raises_within cfg env fuel tests duration max_runs soe :
  raises_within before_report (stress_openstack cfg env fuel tests duration max_runs soe).
Proof.
  unfold stress_openstack.
  apply raises_within_bind.
  { apply emits_prepare_logs. intros. left. exact I. }
  intros computes. apply raises_within_bind.
  { apply (emits_weaken setup_event); [intros ev H; left; exact H|apply emits_spawn_all]. }
  intros _. apply raises_within_bind.
  { destruct soe; [apply emits_emit; left; exact I|apply emits_ret]. }
  intros _. apply raises_within_bind; [apply emits_time_time|].
  intros t. apply raises_within_bind.
  { apply (emits_weaken poll_event); [intros ev H; right; exact H|apply emits_polling_loop]. }
  intros had w e w' Hrep. now apply report_never_raises in Hrep.
Qed.

Lemma before_report_plain (tr : list event) :
  Forall before_report tr ->
  cleanup_calls tr = 0%nat /\ Forall (fun ev => ~ stop_event ev /\ ~ report_line ev) tr.
Proof.
  intros Htr. split.
  - apply (cleanup_free before_report); [|exact Htr].
    intros ev [H|H] ->; exact H.
  - eapply Forall_impl; [exact Htr|].
    intros ev [H|H]; destruct ev; cbn in *; tauto.
Qed.

(** X6: a run of [stress_openstack] that raises has done nothing but
    set-up and polling: it has not terminated or joined any process, has
    written no report line and has not called the cleanup.  The workers it
    had started are left to themselves (and, under [stop_on_error], to the
    SIGCHLD handler, whose moves are the environment's). *)
Theorem raising_run_leaves_workers cfg env fuel tests duration max_runs soe w e w' :
  stress_openstack cfg env fuel tests duration max_runs soe w = Raise e w' ->
  exists tr,
    events w' = events w ++ tr /\
    Forall before_report tr /\
    cleanup_calls tr = 0%nat /\
    Forall (fun ev => ~ stop_event ev /\ ~ report_line ev) tr.
Proof.
  intros Hrun.
  destruct (stress_openstack_raises_within _ _ _ _ _ _ _ _ _ _ Hrun) as (tr & Hev & Htr).
  exists tr. split; [exact Hev|]. split; [exact Htr|]. now apply before_report_plain.
Qed.

(** On a channel that times out at the first log scan, after three
    workers have been started. *)
Lemma raising_run_leaves_workers_witness :
  exists w' tr,
    stress_openstack watched_cfg late_timeout_env 5 echo_tests 2 None false fresh
    = Raise (OtherException "SSHTimeout") w' /\
    events w' = events fresh ++ tr /\
    Forall before_report tr /\
    cleanup_calls tr = 0%nat /\
    Forall (fun ev => ~ stop_event ev /\ ~ report_line ev) tr /\
    existsb is_alive (processes w') = true.
Proof.
  assert (H : exists w',
             stress_openstack watched_cfg late_timeout_env 5 echo_tests 2 None false fresh
             = Raise (OtherException "SSHTimeout") w' /\
             existsb is_alive (processes w') = true).
  { eexists. split; [vm_compute; reflexivity|reflexivity]. }
  destruct H as (w' & Hrun & Halive).
  destruct (raising_run_leaves_workers watched_cfg late_timeout_env 5 echo_tests 2 None false
              fresh (OtherException "SSHTimeout") w' Hrun)
    as (tr & Hev & Htr & Hc & Hs).
  exists w', tr. repeat split; assumption.
Defined.

(** ** The registry *)

Lemma registry_grown_trans l1 l2 w1 w2 w3 :
  registry_grown l1 w1 w2 -> registry_grown l2 w2 w3 -> registry_grown (l1 ++ l2) w1 w3.
Proof. unfold registry_grown. intros H1 H2. rewrite H2, H1. now rewrite app_assoc. Qed.

Lemma same_labels_grown w w' : same_labels w w' <-> registry_grown [] w w'.
Proof. unfold same_labels, registry_grown. now rewrite app_nil_r. Qed.

(** One replica: its entry is appended when it is started, and nothing is
    appended when its [setUp] raises. *)
Lemma spawn_outcome env t number w :
  match spawn env t number w with
  | Return _ w' => registry_grown [(number, test_action t)] w w'
  | Raise _ w' => same_labels w w'
  | OutOfFuel => True
  end.
Proof.
  unfold spawn, bind, setUp, append_and_start, emit, ret, registry_grown, same_labels.
  destruct (use_isolated_tenants t); cbn;
    destruct (setUp_raises env _ (test_action t)); cbn;
    rewrite ?fmap_app; reflexivity.
Qed.

Lemma spawn_threads env t (numbers : list Z) :
  forall w,
    match for_each numbers (fun number => bind (spawn env t number) (fun _ => ret false)) w with
    | Return _ w' => registry_grown (map (fun number => (number, test_action t)) numbers) w w'
    | Raise _ w' =>
        exists started,
          started `prefix_of` map (fun number => (number, test_action t)) numbers /\
          (length started < length numbers)%nat /\
          registry_grown started w w'
    | OutOfFuel => True
    end.
Proof.
  induction numbers as [|number numbers IH]; intros w; cbn [for_each map].
  - unfold ret, registry_grown. now rewrite app_nil_r.
  - unfold bind at 1. unfold bind at 1.
    pose proof (spawn_outcome env t number w) as Hone.
    destruct (spawn env t number w) as [[] w1|e w1|]; [| |exact I].
    + cbn [ret]. specialize (IH w1).
      destruct (for_each numbers _ w1) as [[] w2|e w2|]; [| |exact I].
      * apply (registry_grown_trans [_] _ w w1 w2); assumption.
      * destruct IH as (started & Hpre & Hlen & Hgrown).
        exists ((number, test_action t) :: started).
        split; [now apply prefix_cons|]. split; [cbn; lia|].
        apply (registry_grown_trans [_] _ w w1 w2); assumption.
    + exists []. split; [apply prefix_nil|]. split; [cbn; lia|].
      now apply same_labels_grown.
Qed.

Lemma spawn_all_outcome env (tests : list test) :
  forall w,
    match spawn_all env tests w with
    | Return _ w' => registry_grown (replicas tests) w w'
    | Raise _ w' =>
        exists started,
          started `prefix_of` replicas tests /\
          (length started < length (replicas tests))%nat /\
          registry_grown started w w'
    | OutOfFuel => True
    end.
Proof.
  unfold spawn_all.
  induction tests as [|t tests IH]; intros w; cbn [for_each].
  - unfold ret, registry_grown, replicas. cbn. now rewrite app_nil_r.
  - unfold bind at 1. unfold bind at 1.
    pose proof (spawn_threads env t (xrange (threads t)) w) as Hone.
    change (replicas (t :: tests))
      with (map (fun number => (number, test_action t)) (xrange (threads t)) ++ replicas tests).
    destruct (for_each (xrange (threads t)) _ w) as [[] w1|e w1|]; [| |exact I].
    + cbn [ret]. specialize (IH w1).
      destruct (for_each tests _ w1) as [[] w2|e w2|]; [| |exact I].
      * eapply registry_grown_trans; eassumption.
      * destruct IH as (started & Hpre & Hlen & Hgrown).
        exists (map (fun number => (number, test_action t)) (xrange (threads t)) ++ started).
        split; [now apply prefix_app|].
        split; [rewrite !length_app; lia|].
        eapply registry_grown_trans; eassumption.
    + destruct Hone as (started & Hpre & Hlen & Hgrown).
      exists started. split; [now apply prefix_app_r|].
      split; [rewrite length_app, length_map; lia|exact Hgrown].
Qed.









(** ** The registry across runs *)

Lemma no_line_label (P : event -> Prop) (tr : list event) :
  (forall ev, P ev -> line_label ev = None) -> Forall P tr -> omap line_label tr = [].
Proof.
  intros HP. induction 1 as [|ev tr Hev _ IH]; [reflexivity|].
  cbn. now rewrite (HP ev Hev).
Qed.

Lemma preserves_labels_time_sleep env d : preserves same_labels (time_sleep env d).
Proof.
  intros w. unfold time_sleep. destruct (d <? 0); [reflexivity|].
  unfold same_labels. cbn. apply progress_labels.
Qed.

Lemma preserves_labels_loop_body cfg env remaining soe computes :
  preserves same_labels (loop_body cfg env remaining soe computes).
Proof.
  pose proof same_labels_trans as Htrans.
  assert (Hquiet : forall w w', same_clock w w' -> same_labels w w' -> same_labels w w')
    by (intros ? ? _ H; exact H).
  unfold loop_body.
  apply preserves_bind; [exact Htrans|apply preserves_labels_time_sleep|]. intros _.
  apply preserves_bind; [exact Htrans| |].
  { destruct soe; [now apply preserves_check_fails|].
    apply preserves_ret. intros w. reflexivity. }
  intros _. destruct (negb (truthy (target_logfiles cfg))).
  - apply preserves_ret. intros w. reflexivity.
  - apply preserves_bind; [exact Htrans|now apply preserves_error_in_logs|].
    intros errors. apply preserves_ret. intros w. reflexivity.
Qed.

Lemma preserves_labels_polling_loop cfg env (fuel : nat) end_time max_runs soe computes :
  preserves same_labels (polling_loop cfg env fuel end_time max_runs soe computes).
Proof.
  pose proof same_labels_trans as Htrans.
  assert (Hquiet : forall w w', same_clock w w' -> same_labels w w' -> same_labels w w')
    by (intros ? ? _ H; exact H).
  induction fuel as [|fuel IH]; cbn [polling_loop]; [intros w; exact I|].
  apply preserves_bind; [exact Htrans|now apply preserves_loop_head|].
  intros [remaining|]; [|apply preserves_ret; intros w; reflexivity].
  apply preserves_bind; [exact Htrans|apply preserves_labels_loop_body|].
  intros [|]; [apply preserves_ret; intros w; reflexivity|exact IH].
Qed.

(** Reading a shared counter leaves the entry where it is, with its
    label. *)
Lemma shared_get_label env i key w p :
  processes w !! i = Some p ->
  exists v w' p',
    shared_get env i key w = Return v w' /\
    processes w' !! i = Some p' /\ label p' = label p /\
    same_labels w w' /\ events w' = events w.
Proof.
  intros Hp. unfold shared_get. rewrite progress_lookup, Hp. cbn.
  eexists _, _, _. split; [reflexivity|]. cbn.
  split; [rewrite progress_lookup, Hp; reflexivity|].
  split; [reflexivity|]. split; [apply progress_labels|reflexivity].
Qed.

(** One iteration of the statistics loop writes the line of its entry. *)
Lemma report_process_label env i t w p :
  processes w !! i = Some p ->
  exists t' w' line,
    report_process env i t w = Return t' w' /\
    same_labels w w' /\
    events w' = events w ++ [line] /\ line_label line = Some (label p).
Proof.
  intros Hp. unfold report_process.
  destruct (shared_get_label env i fails w p Hp) as (f & w1 & p1 & Hrun1 & Hp1 & Hl1 & Hs1 & He1).
  erewrite bind_Return by exact Hrun1.
  destruct (shared_get_label env i runs w1 p1 Hp1) as (r1 & w2 & p2 & Hrun2 & Hp2 & Hl2 & Hs2 & He2).
  erewrite bind_Return by exact Hrun2.
  destruct (shared_get_label env i fails w2 p2 Hp2) as (f1 & w3 & p3 & Hrun3 & Hp3 & Hl3 & Hs3 & He3).
  erewrite bind_Return by exact Hrun3.
  erewrite bind_Return by (unfold registry_get; rewrite Hp3; reflexivity).
  destruct (shared_get_label env i runs w3 p3 Hp3) as (r2 & w4 & p4 & Hrun4 & Hp4 & Hl4 & Hs4 & He4).
  erewrite bind_Return by exact Hrun4.
  destruct (shared_get_label env i fails w4 p4 Hp4) as (f2 & w5 & p5 & Hrun5 & Hp5 & Hl5 & Hs5 & He5).
  erewrite bind_Return by exact Hrun5.
  eexists _, _, (EvInfoProcess (p_number p3) (action p3) r2 f2).
  split; [reflexivity|].
  split; [unfold same_labels in *; cbn [processes]; congruence|].
  split; [cbn [events]; congruence|].
  cbn. f_equal. change (label p3 = label p). congruence.
Qed.

Lemma report_loop_labels env (m : nat) :
  forall (a : nat) (t : totals) (w : world),
    (a + m = length (processes w))%nat ->
    exists t' w' tr,
      for_fold (seq a m) (report_process env) t w = Return t' w' /\
      same_labels w w' /\
      events w' = events w ++ tr /\
      omap line_label tr = drop a (label <$> processes w).
Proof.
  induction m as [|m IH]; intros a t w Hlen.
  - exists t, w, []. cbn. rewrite app_nil_r.
    split; [reflexivity|]. split; [reflexivity|]. split; [reflexivity|].
    rewrite drop_ge; [reflexivity|]. rewrite length_fmap. lia.
  - destruct (lookup_lt_is_Some_2 (processes w) a) as [p Hp]; [lia|].
    destruct (report_process_label env a t w p Hp) as (t1 & w1 & line & Hrun & Hs & Hev & Hline).
    cbn [seq for_fold]. erewrite bind_Return by exact Hrun.
    assert (Hlen1 : length (processes w1) = length (processes w)).
    { unfold same_labels in Hs. apply (f_equal length) in Hs.
      now rewrite !length_fmap in Hs. }
    destruct (IH (S a) t1 w1) as (t' & w' & tr & Hrun' & Hs' & Hev' & Htr); [lia|].
    exists t', w', (line :: tr). split; [exact Hrun'|].
    split; [eapply same_labels_trans; eassumption|].
    split; [rewrite Hev', Hev, <- app_assoc; reflexivity|].
    change (omap line_label (line :: tr))
      with (match line_label line with
            | Some l => l :: omap line_label tr
            | None => omap line_label tr
            end).
    rewrite Hline, Htr. unfold same_labels in Hs. rewrite Hs.
    symmetry. apply drop_S. now rewrite list_lookup_fmap, Hp.
Qed.

(** The report writes one line for each entry of the registry, in the
    order of the registry, and leaves the entries in place. *)
Lemma report_labels env had w :
  exists r w' tr,
    report env had w = Return r w' /\
    same_labels w w' /\
    events w' = events w ++ tr /\
    omap line_label tr = (label <$> processes w).
Proof.
  destruct (terminate_all_processes_spec env w)
    as (w1 & Hstop & _ & _ & (tr_stop & Hev1 & Htr1 & _) & _ & _).
  assert (Hs1 : same_labels w w1).
  { apply (preserves_Return same_labels (terminate_all_processes env) w tt w1); [|exact Hstop].
    apply preserves_terminate_all_processes; [exact same_labels_trans|].
    intros ? ? _ H. exact H. }
  set (ws := World (now w1) (processes w1) (events w1 ++ [EvInfoStatistics]) (epoch w1)).
  destruct (report_loop_labels env (length (processes ws)) 0 (Totals had 0 0) ws)
    as (t & w2 & tr & Hloop & Hs2 & Hev2 & Htr2); [reflexivity|].
  change (same_labels w1 w2) in Hs2.
  change (events w2 = (events w1 ++ [EvInfoStatistics]) ++ tr) in Hev2.
  change (omap line_label tr = drop 0 (label <$> processes w1)) in Htr2.
  exists (RunReport (if had_errors t then 1 else 0) t),
    (World (now w2) (processes w2) (events w2 ++ closing_events t) (epoch w2)),
    (tr_stop ++ [EvInfoStatistics] ++ tr ++ closing_events t).
  split.
  { unfold report. erewrite bind_Return by exact Hstop.
    unfold bind at 1. unfold emit at 1. fold ws.
    unfold bind at 1. unfold get_processes at 1.
    erewrite bind_Return by exact Hloop.
    unfold closing_events, bind, emit, ret. cbn.
    destruct (had_errors t); cbn; rewrite <- ?app_assoc; reflexivity. }
  split; [unfold same_labels in *; cbn; congruence|].
  split; [cbn; rewrite Hev2, Hev1; now rewrite <- !app_assoc|].
  rewrite !omap_app, Htr2, drop_0.
  rewrite (no_line_label stop_event tr_stop); [|intros ev H; now destruct ev|exact Htr1].
  unfold same_labels in Hs1. rewrite Hs1.
  unfold closing_events. destruct (had_errors t); cbn; now rewrite app_nil_r.
Qed.

(** X8: the registry is never emptied.  A run that returns leaves in it the
    entries it found on entry followed by one entry for each replica it
    started, and its report has one line for each of them, in that order:
    workers of an earlier run in the same interpreter are reported
    again. *)
Theorem registry_outlives_the_run cfg env fuel tests duration max_runs soe w r w' :
  stress_openstack cfg env fuel tests duration max_runs soe w = Return r w' ->
  (label <$> processes w') = (label <$> processes w) ++ replicas tests /\
  exists tr,
    events w' = events w ++ tr /\
    omap line_label tr = (label <$> processes w) ++ replicas tests.
Proof.
  unfold stress_openstack. intros Hrun.
  apply bind_inv in Hrun. destruct Hrun as (computes & w1 & Hprep & Hrun).
  apply bind_inv in Hrun. destruct Hrun as ([] & w2 & Hspawn & Hrun).
  apply bind_inv in Hrun. destruct Hrun as ([] & w3 & Hsig & Hrun).
  apply bind_inv in Hrun. destruct Hrun as (t & w4 & Htime & Hrun).
  injection Htime as <- <-.
  apply bind_inv in Hrun. destruct Hrun as (had & wl & Hloop & Hrep).
  assert (Hquiet : forall w w', same_clock w w' -> same_labels w w' -> same_labels w w')
    by (intros ? ? _ H; exact H).
  assert (H1 : same_labels w w1).
  { eapply preserves_Return; [|exact Hprep].
    now apply preserves_prepare_logs; [exact same_labels_trans|]. }
  pose proof (spawn_all_outcome env tests w1) as H2. rewrite Hspawn in H2.
  assert (H3 : same_labels w2 w3).
  { destruct soe; injection Hsig as <-; reflexivity. }
  assert (H4 : same_labels w3 wl).
  { eapply preserves_Return; [apply preserves_labels_polling_loop|exact Hloop]. }
  destruct (report_labels env had wl) as (r0 & w0 & tr5 & Hrep0 & H5 & Hev5 & Htr5).
  rewrite Hrep in Hrep0. injection Hrep0 as <- <-.
  assert (Hreg : (label <$> processes wl) = (label <$> processes w) ++ replicas tests).
  { unfold same_labels, registry_grown in *. congruence. }
  split; [unfold same_labels in H5; congruence|].
  destruct (emits_Return setup_event _ _ _ _
              (emits_prepare_logs cfg env setup_event (fun _ _ => I)) Hprep)
    as (tr1 & Hev1 & Htr1).
  destruct (emits_Return _ _ _ _ _ (emits_spawn_all env tests) Hspawn)
    as (tr2 & Hev2 & Htr2).
  assert (Hs : emits setup_event (if soe then emit EvSignal else ret tt)).
  { destruct soe; [apply emits_emit; exact I|apply emits_ret]. }
  destruct (emits_Return _ _ _ _ _ Hs Hsig) as (tr3 & Hev3 & Htr3).
  destruct (emits_Return _ _ _ _ _ (emits_polling_loop cfg env fuel _ max_runs soe computes) Hloop)
    as (tr4 & Hev4 & Htr4).
  exists (tr1 ++ tr2 ++ tr3 ++ tr4 ++ tr5).
  split; [rewrite Hev5, Hev4, Hev3, Hev2, Hev1; now rewrite <- !app_assoc|].
  assert (Hsetup : forall ev, setup_event ev -> line_label ev = None)
    by (intros ev H; now destruct ev).
  assert (Hpoll : forall ev, poll_event ev -> line_label ev = None)
    by (intros ev H; now destruct ev).
  rewrite !omap_app.
  rewrite (no_line_label _ tr1 Hsetup Htr1), (no_line_label _ tr2 Hsetup Htr2),
    (no_line_label _ tr3 Hsetup Htr3), (no_line_label _ tr4 Hpoll Htr4).
  cbn. rewrite Htr5. exact Hreg.
Qed.

(** A second run in the interpreter that has run [echo_tests] before:
    six lines are reported for the three workers it starts. *)
Lemma registry_outlives_the_run_witness :
  exists r w' tr,
    stress_openstack echo_cfg echo_env 5 echo_tests 2 None false after_first_run = Return r w' /\
    (label <$> processes w') =
      [(0, "EchoAction"); (1, "EchoAction"); (2, "EchoAction");
       (0, "EchoAction"); (1, "EchoAction"); (2, "EchoAction")] /\
    events w' = events after_first_run ++ tr /\
    omap line_label tr = (label <$> processes w').
Proof.
  assert (H : exists r w',
             stress_openstack echo_cfg echo_env 5 echo_tests 2 None false after_first_run
             = Return r w').
  { eexists _, _. vm_compute. reflexivity. }
  destruct H as (r & w' & Hrun).
  destruct (registry_outlives_the_run echo_cfg echo_env 5 echo_tests 2 None false
              after_first_run r w' Hrun) as (Hreg & tr & Hev & Htr).
  exists r, w', tr. split; [exact Hrun|]. split; [exact Hreg|]. split; [exact Hev|].
  rewrite Htr, Hreg. reflexivity.
Defined.

(** ** The shape of a termination *)

Lemma stop_trace_joins (attempted : list bool) :
  forall a, omap join_index (stop_trace a attempted) = seq a (length attempted).
Proof.
  induction attempted as [|b rest IH]; intros a; [reflexivity|].
  cbn [stop_trace length seq]. rewrite omap_app, IH. now destruct b.
Qed.

Lemma for_each_seq_S (body : nat -> M bool) (a j : nat) w w1 :
  body a w = Return false w1 ->
  for_each (seq a (S j)) body w = for_each (seq (S a) j) body w1.
Proof. intros H. cbn [seq for_each]. now erewrite bind_Return by exact H. Qed.

(** The liveness of the processes behind position [a] after the
    iteration for [a], in a steady environment. *)
Lemma steady_rest env k a (ps : list process) :
  steady env ->
  (is_alive <$> drop (S a) (alter (set_handle Joined) a (progress env k ps)))
  = (is_alive <$> drop (S a) ps).
Proof.
  intros Hsteady. apply list_eq. intros j.
  rewrite !list_lookup_fmap, !lookup_drop.
  rewrite list_lookup_alter_ne by lia.
  rewrite progress_lookup.
  destruct (ps !! (S a + j)%nat) as [p|]; [|reflexivity].
  cbn. f_equal. apply Hsteady.
Qed.

Lemma terminate_loop_trace env (m : nat) :
  forall (a : nat) (w : world),
    (a + m = length (processes w))%nat ->
    exists w' attempted,
      for_each (seq a m) (terminate_and_join env) w = Return tt w' /\
      length attempted = m /\
      events w' = events w ++ stop_trace a attempted /\
      (forall j b, attempted !! j = Some b ->
         exists wj p,
           for_each (seq a j) (terminate_and_join env) w = Return tt wj /\
           processes wj !! (a + j)%nat = Some p /\
           is_alive p = b) /\
      (steady env -> attempted = (is_alive <$> drop a (processes w))).
Proof.
  induction m as [|m IH]; intros a w Hlen.
  - exists w, []. cbn. rewrite app_nil_r.
    split; [reflexivity|]. split; [reflexivity|]. split; [reflexivity|].
    split; [intros j b Hj; discriminate|].
    intros _. rewrite drop_ge by lia. reflexivity.
  - destruct (lookup_lt_is_Some_2 (processes w) a) as [p Hp]; [lia|].
    pose proof (terminate_and_join_spec env a w p Hp) as Hone. cbn zeta in Hone.
    rewrite (for_each_seq_S _ a m w _ Hone).
    set (w1 := World _ _ _ _) in *.
    destruct (IH (S a) w1) as (w' & attempted & Hrun & Hatt & Hev & Hfound & Hsteady).
    { unfold w1. cbn [processes]. rewrite length_alter, progress_length. lia. }
    exists w', (is_alive p :: attempted).
    split; [exact Hrun|]. split; [cbn; now rewrite Hatt|].
    split.
    { rewrite Hev. unfold w1. cbn [events stop_trace]. unfold stop_block.
      now rewrite <- !app_assoc. }
    split.
    + intros [|j] b Hj.
      * injection Hj as <-. exists w, p. split; [reflexivity|].
        split; [now rewrite Nat.add_0_r|reflexivity].
      * destruct (Hfound j b Hj) as (wj & q & Hprefix & Hq & Hb).
        exists wj, q. split; [now rewrite (for_each_seq_S _ a j w _ Hone)|].
        split; [|exact Hb]. now replace (a + S j)%nat with (S a + j)%nat by lia.
    + intros Hst. rewrite (Hsteady Hst). unfold w1. cbn [processes].
      rewrite steady_rest by exact Hst.
      now rewrite (drop_S _ _ _ Hp).
Qed.

(** X9: in any environment, also one in which [terminate()] raises, a call
    of [terminate_all_processes] goes once through the registry in order:
    for the process at each position a [terminate()] exactly when the loop
    finds it alive on reaching it, directly followed by its [join()].  So
    every process is joined exactly once, and none is terminated twice or
    after it has been joined.  Where no worker changes between alive and
    not alive by itself, the processes terminated are those alive on
    entry. *)
Theorem terminate_all_processes_trace env w :
  exists w' attempted tr,
    terminate_all_processes env w = Return tt w' /\
    length attempted = length (processes w) /\
    tr = stop_trace 0 attempted /\
    events w' = events w ++ tr /\
    omap join_index tr = seq 0 (length (processes w)) /\
    (forall i b, attempted !! i = Some b -> found_alive env w i b) /\
    (steady env -> attempted = (is_alive <$> processes w)).
Proof.
  destruct (terminate_loop_trace env (length (processes w)) 0 w)
    as (w' & attempted & Hrun & Hlen & Hev & Hfound & Hsteady); [reflexivity|].
  exists w', attempted, (stop_trace 0 attempted).
  split; [exact Hrun|]. split; [exact Hlen|]. split; [reflexivity|].
  split; [exact Hev|]. split; [now rewrite stop_trace_joins, Hlen|].
  split; [|exact Hsteady].
  intros i b Hi. destruct (Hfound i b Hi) as (wi & p & Hprefix & Hp & Hb).
  exists wi, p. split; [exact Hprefix|]. split; [exact Hp|exact Hb].
Qed.

(** On a registry with a running, an exited and a joined worker, with a
    [terminate()] that raises: only the running worker is terminated. *)
Lemma terminate_all_processes_trace_witness :
  steady echo_env /\
  found_alive echo_env mixed 0 true /\
  found_alive echo_env mixed 1 false /\
  exists w',
    terminate_all_processes echo_env mixed = Return tt w' /\
    events w' = events mixed ++ [EvTerminate 0; EvJoin 0; EvJoin 1; EvJoin 2]%nat.
Proof.
  assert (Hsteady : steady echo_env).
  { intros k i [[| |] n a [r f]]; reflexivity. }
  destruct (terminate_all_processes_trace echo_env mixed)
    as (w' & attempted & tr & Hrun & Hlen & Htr & Hev & Hjoins & Hfound & Hatt).
  specialize (Hatt Hsteady). subst attempted.
  split; [exact Hsteady|].
  split; [apply (Hfound 0%nat true); reflexivity|].
  split; [apply (Hfound 1%nat false); reflexivity|].
  exists w'. split; [exact Hrun|]. rewrite Hev, Htr. reflexivity.
Defined.

(** ** The order of starts and handler *)

Lemma no_start (P : event -> Prop) (tr : list event) :
  (forall ev, P ev -> start_index ev = None) -> Forall P tr -> omap start_index tr = [].
Proof.
  intros HP. induction 1 as [|ev tr Hev _ IH]; [reflexivity|].
  cbn. now rewrite (HP ev Hev).
Qed.

Lemma started_trans n m w1 w2 w3 :
  started n w1 w2 -> started m w2 w3 -> started (n + m) w1 w3.
Proof.
  intros (Hl1 & tr1 & Hev1 & Hst1 & Hno1) (Hl2 & tr2 & Hev2 & Hst2 & Hno2).
  split; [lia|]. exists (tr1 ++ tr2).
  split; [rewrite Hev2, Hev1; now rewrite <- app_assoc|].
  split; [|now apply Forall_app].
  rewrite omap_app, Hst1, Hst2, Hl1. symmetry. apply seq_app.
Qed.

Lemma started_refl w : started 0 w w.
Proof.
  split; [lia|]. exists []. rewrite app_nil_r.
  split; [reflexivity|]. split; [reflexivity|constructor].
Qed.

Lemma spawn_started env t number w w' :
  spawn env t number w = Return tt w' -> started 1 w w'.
Proof.
  unfold spawn, bind, setUp, append_and_start, emit, ret.
  destruct (use_isolated_tenants t); cbn;
    destruct (setUp_raises env _ (test_action t)); cbn; intros H; try discriminate;
    injection H as <-; (split; [cbn; rewrite length_app; cbn; lia|]); cbn [events processes].
  - exists [EvCreateIdentity; EvSetUp (test_action t); EvStart (length (processes w))].
    split; [now rewrite <- !app_assoc|]. split; [reflexivity|].
    repeat constructor; discriminate.
  - exists [EvSetUp (test_action t); EvStart (length (processes w))].
    split; [now rewrite <- !app_assoc|]. split; [reflexivity|].
    repeat constructor; discriminate.
Qed.

Lemma spawn_threads_started env t (numbers : list Z) :
  forall w w',
    for_each numbers (fun number => bind (spawn env t number) (fun _ => ret false)) w
    = Return tt w' ->
    started (length numbers) w w'.
Proof.
  induction numbers as [|number numbers IH]; intros w w' Hrun; cbn [for_each] in Hrun.
  - injection Hrun as <-. apply started_refl.
  - apply bind_inv in Hrun. destruct Hrun as (b & w1 & Hone & Hrun).
    apply bind_inv in Hone. destruct Hone as ([] & w0 & Hone & Hret).
    injection Hret as <- <-.
    apply (started_trans 1 (length numbers) w w0 w'); [exact (spawn_started env t number w w0 Hone)|].
    now apply IH.
Qed.

Lemma spawn_all_started env (tests : list test) :
  forall w w',
    spawn_all env tests w = Return tt w' -> started (length (replicas tests)) w w'.
Proof.
  unfold spawn_all.
  induction tests as [|t tests IH]; intros w w' Hrun; cbn [for_each] in Hrun.
  - injection Hrun as <-. apply started_refl.
  - apply bind_inv in Hrun. destruct Hrun as (b & w1 & Hone & Hrun).
    apply bind_inv in Hone. destruct Hone as ([] & w0 & Hone & Hret).
    injection Hret as <- <-.
    change (replicas (t :: tests))
      with (map (fun number => (number, test_action t)) (xrange (threads t)) ++ replicas tests).
    rewrite length_app, length_map.
    apply (started_trans _ _ w w0 w');
      [exact (spawn_threads_started env t _ w w0 Hone)|now apply IH].
Qed.

(** The events of a report: none starts a worker or installs the
    handler. *)
Lemma report_no_start env had w r w' :
  report env had w = Return r w' ->
  exists tr, events w' = events w ++ tr /\ Forall no_start_no_signal tr.
Proof.
  intros Hrun.
  destruct (report_spec env had w)
    as (w1 & t & w2 & tr_stop & tr_lines & _ & Hev1 & Hstop & _ & Hrep & _ & _ & Hev2 & Hlines & _).
  rewrite Hrun in Hrep. injection Hrep as -> <-.
  exists (tr_stop ++ [EvInfoStatistics] ++ tr_lines ++ closing_events t).
  split; [rewrite Hev2, Hev1; now rewrite <- !app_assoc|].
  apply Forall_app. split.
  { eapply Forall_impl; [exact Hstop|]. intros ev H. now destruct ev. }
  apply Forall_app. split; [repeat constructor; discriminate|].
  apply Forall_app. split.
  { eapply Forall_impl; [exact Hlines|]. intros ev H. now destruct ev. }
  unfold closing_events. destruct (had_errors t); repeat constructor; discriminate.
Qed.

(** X10: in a run that returns, the workers are started one after the
    other at the registry positions that follow the entries found on
    entry, and the SIGCHLD handler is installed after the last start: once
    under [stop_on_error], and not at all without it.  Nothing is
    started once the polling loop has begun. *)
Theorem handler_installed_after_starts cfg env fuel tests duration max_runs soe w r w' :
  stress_openstack cfg env fuel tests duration max_runs soe w = Return r w' ->
  exists tr_setup tr_rest,
    events w' = events w ++ tr_setup ++ (if soe then [EvSignal] else []) ++ tr_rest /\
    omap start_index tr_setup = seq (length (processes w)) (length (replicas tests)) /\
    Forall (fun e => e <> EvSignal) tr_setup /\
    Forall no_start_no_signal tr_rest.
Proof.
  unfold stress_openstack. intros Hrun.
  apply bind_inv in Hrun. destruct Hrun as (computes & w1 & Hprep & Hrun).
  apply bind_inv in Hrun. destruct Hrun as ([] & w2 & Hspawn & Hrun).
  apply bind_inv in Hrun. destruct Hrun as ([] & w3 & Hsig & Hrun).
  apply bind_inv in Hrun. destruct Hrun as (t & w4 & Htime & Hrun).
  injection Htime as <- <-.
  apply bind_inv in Hrun. destruct Hrun as (had & wl & Hloop & Hrep).
  assert (Hexec : forall host command, no_start_no_signal (EvExec host command))
    by (intros host command; split; [reflexivity|discriminate]).
  destruct (emits_Return no_start_no_signal _ _ _ _
              (emits_prepare_logs cfg env _ Hexec) Hprep)
    as (tr1 & Hev1 & Htr1).
  assert (Hlen1 : length (processes w1) = length (processes w)).
  { assert (H : same_labels w w1).
    { eapply preserves_Return; [|exact Hprep].
      apply preserves_prepare_logs; [exact same_labels_trans|intros ? ? _ H; exact H]. }
    unfold same_labels in H. apply (f_equal length) in H. now rewrite !length_fmap in H. }
  destruct (spawn_all_started env tests w1 w2 Hspawn) as (_ & tr2 & Hev2 & Hst2 & Hno2).
  destruct (emits_Return _ _ _ _ _ (emits_polling_loop cfg env fuel _ max_runs soe computes) Hloop)
    as (tr4 & Hev4 & Htr4).
  destruct (report_no_start env had wl r w' Hrep) as (tr5 & Hev5 & Htr5).
  exists (tr1 ++ tr2), (tr4 ++ tr5).
  split.
  { rewrite Hev5, Hev4.
    assert (Hev3 : events w3 = events w2 ++ (if soe then [EvSignal] else [])).
    { destruct soe; injection Hsig as <-; [reflexivity|now rewrite app_nil_r]. }
    rewrite Hev3, Hev2, Hev1. now rewrite <- !app_assoc. }
  split.
  { rewrite omap_app, Hst2, Hlen1.
    rewrite (no_start no_start_no_signal tr1); [reflexivity| |exact Htr1].
    intros ev [H _]. exact H. }
  split.
  { apply Forall_app. split; [|exact Hno2].
    eapply Forall_impl; [exact Htr1|]. intros ev [_ H]. exact H. }
  apply Forall_app. split; [|exact Htr5].
  eapply Forall_impl; [exact Htr4|]. intros ev H. split; now destruct ev.
Qed.

(** A second run of [echo_tests] under [stop_on_error]: its three workers
    are started at positions 3, 4 and 5, then the handler is installed. *)
Lemma handler_installed_after_starts_witness :
  exists r w' tr_setup tr_rest,
    stress_openstack echo_cfg echo_env 5 echo_tests 2 None true after_first_run = Return r w' /\
    events w' = events after_first_run ++ tr_setup ++ [EvSignal] ++ tr_rest /\
    omap start_index tr_setup = [3; 4; 5]%nat /\
    Forall (fun e => e <> EvSignal) tr_setup /\
    Forall no_start_no_signal tr_rest.
Proof.
  assert (H : exists r w',
             stress_openstack echo_cfg echo_env 5 echo_tests 2 None true after_first_run
             = Return r w').
  { eexists _, _. vm_compute. reflexivity. }
  destruct H as (r & w' & Hrun).
  destruct (handler_installed_after_starts echo_cfg echo_env 5 echo_tests 2 None true
              after_first_run r w' Hrun) as (tr_setup & tr_rest & Hev & Hst & Hno & Hrest).
  exists r, w', tr_setup, tr_rest.
  split; [exact Hrun|]. split; [exact Hev|]. split; [exact Hst|]. split; assumption.
Defined.

(** ** Preparing the logs *)

Lemma remove_logs cfg env command (nodes : list string) :
  has_credentials cfg = true ->
  answered env command ->
  forall w,
    exists w',
      for_each nodes (fun node => bind (do_ssh cfg env command node) (fun _ => ret false)) w
      = Return tt w' /\
      events w' = events w ++ map (fun node => EvExec node command) nodes.
Proof.
  intros Hc Hans. induction nodes as [|node nodes IH]; intros w; cbn [for_each map].
  - exists w. now rewrite app_nil_r.
  - unfold bind at 1. unfold bind at 1.
    rewrite do_ssh_with_credentials by exact Hc. cbn zeta.
    set (w1 := World _ _ _ _).
    destruct (IH w1) as (w' & Hrun & Hev).
    assert (Hev' : events w' = events w ++ EvExec node command :: map (fun n => EvExec n command) nodes).
    { rewrite Hev. unfold w1. cbn [events]. now rewrite <- app_assoc. }
    destruct (exec_command env (epoch w) node command) as [out|e] eqn:E.
    + exists w'. split; [exact Hrun|exact Hev'].
    + rewrite (Hans _ _ _ E). exists w'. split; [exact Hrun|exact Hev'].
Qed.

(** X11: with log files to watch and credentials configured, on a
    well-formed service listing [prepare_logs] sends the listing to the
    controller and then one removal of the log files to each listed
    compute node, in the order of the listing, whether or not the
    removals succeed; it returns the listed nodes.  The controller's own
    log files are removed only if the controller is listed. *)
Theorem prepare_logs_removes_logs cfg env w out :
  truthy (target_logfiles cfg) = true ->
  has_credentials cfg = true ->
  exec_command env (epoch w) (target_controller cfg) service_list_command = Output out ->
  Forall well_formed_line (split_on newline out) ->
  answered env ("rm -f " ++ str (target_logfiles cfg))%string ->
  exists w',
    prepare_logs cfg env w = Return (flat_map listed (split_on newline out)) w' /\
    events w' = events w ++ EvExec (target_controller cfg) service_list_command
                  :: map (removal cfg) (flat_map listed (split_on newline out)).
Proof.
  intros Hlog Hc Hout Hall Hans. unfold prepare_logs. rewrite Hlog.
  assert (Hnodes : exists w1,
             _get_compute_nodes cfg env (target_controller cfg) w
             = Return (flat_map listed (split_on newline out)) w1 /\
             events w1 = events w ++ [EvExec (target_controller cfg) service_list_command]).
  { unfold _get_compute_nodes. cbn zeta.
    unfold bind. rewrite do_ssh_with_credentials by exact Hc. cbn zeta. rewrite Hout.
    destruct out as [|c s].
    - eexists. split; reflexivity.
    - unfold lift. rewrite active_nodes_listed by exact Hall.
      eexists. split; reflexivity. }
  destruct Hnodes as (w1 & Hrun1 & Hev1).
  erewrite bind_Return by exact Hrun1.
  destruct (remove_logs cfg env _ (flat_map listed (split_on newline out)) Hc Hans w1)
    as (w' & Hrun & Hev).
  erewrite bind_Return by exact Hrun.
  exists w'. split; [reflexivity|].
  rewrite Hev, Hev1, <- app_assoc. reflexivity.
Qed.

(** On [full_listing], with removals that fail: both active nodes are
    asked to remove the log file and are returned. *)
Lemma prepare_logs_removes_logs_witness :
  exists w',
    prepare_logs watched_cfg rm_fails_env fresh = Return ["xg11eth0"; "xg13eth0"] w' /\
    events w' = events fresh ++
      [EvExec "controller" service_list_command;
       EvExec "xg11eth0" "rm -f /var/log/nova/nova.log";
       EvExec "xg13eth0" "rm -f /var/log/nova/nova.log"].
Proof.
  apply (prepare_logs_removes_logs watched_cfg rm_fails_env fresh full_listing).
  - reflexivity.
  - reflexivity.
  - reflexivity.
  - vm_compute. repeat constructor; lia.
  - intros k host e. cbn. intros H. now injection H as <-.
Defined.

(** ** Runs without log monitoring *)

Section Unwatched.

Variable cfg : config.
Variable env : environment.
Hypothesis unwatched : truthy (target_logfiles cfg) = false \/ has_credentials cfg = false.

Lemma emits_local_prepare_logs : emits local_event (prepare_logs cfg env).
Proof.
  destruct unwatched as [H|H].
  - unfold prepare_logs. rewrite H. apply emits_ret.
  - apply emits_nothing. intros w. now rewrite prepare_logs_without_credentials.
Qed.

Lemma emits_local_spawn_all tests : emits local_event (spawn_all env tests).
Proof.
  unfold spawn_all. apply emits_for_each. intros t.
  apply emits_bind; [|intros; apply emits_ret].
  apply emits_for_each. intros number.
  apply emits_bind; [|intros; apply emits_ret].
  unfold spawn.
  apply emits_bind.
  { destruct (use_isolated_tenants t); [apply emits_emit; exact I|apply emits_ret]. }
  intros _. apply emits_bind.
  { intros w. unfold setUp. destruct (setUp_raises env (epoch w) (test_action t));
      exists [EvSetUp (test_action t)]; split; try reflexivity; repeat constructor. }
  intros _. apply emits_bind; [|intros; apply emits_ret].
  intros w. cbn. exists [EvStart (length (processes w))]. split; [reflexivity|].
  repeat constructor.
Qed.

Lemma emits_local_loop_body remaining soe computes :
  emits local_event (loop_body cfg env remaining soe computes).
Proof.
  unfold loop_body.
  apply emits_bind; [apply emits_time_sleep; exact I|]. intros _.
  apply emits_bind; [destruct soe; [apply emits_check_fails|apply emits_ret]|]. intros _.
  destruct (truthy (target_logfiles cfg)) eqn:Hlog; cbn [negb]; [|apply emits_ret].
  destruct unwatched as [H|H]; [discriminate|].
  apply emits_nothing. intros w. unfold _error_in_logs, bind.
  now rewrite error_scan_without_credentials.
Qed.

Lemma emits_local_polling_loop (fuel : nat) end_time max_runs soe computes :
  emits local_event (polling_loop cfg env fuel end_time max_runs soe computes).
Proof.
  induction fuel as [|fuel IH]; cbn [polling_loop]; [intros w; exact I|].
  apply emits_bind; [apply emits_loop_head|]. intros [remaining|]; [|apply emits_ret].
  apply emits_bind; [apply emits_local_loop_body|]. intros [|]; [apply emits_ret|exact IH].
Qed.

End Unwatched.

Lemma emits_local_report env had : emits local_event (report env had).
Proof.
  intros w.
  destruct (report_spec env had w)
    as (w1 & t & w2 & tr_stop & tr_lines & _ & Hev1 & Hstop & _ & Hrep & _ & _ & Hev2 & Hlines & _).
  rewrite Hrep.
  exists (tr_stop ++ [EvInfoStatistics] ++ tr_lines ++ closing_events t).
  split; [rewrite Hev2, Hev1; now rewrite <- !app_assoc|].
  apply Forall_app. split.
  { eapply Forall_impl; [exact Hstop|]. intros ev H. now destruct ev. }
  apply Forall_app. split; [repeat constructor|].
  apply Forall_app. split.
  { eapply Forall_impl; [exact Hlines|]. intros ev H. now destruct ev. }
  unfold closing_events. destruct (had_errors t); repeat constructor.
Qed.

(** X12: when no log files are configured, or the user or the key of the
    remote channel is missing, a run of [stress_openstack] involves no
    remote host, however it ends: it sends no command (no listing, no
    removal, no search) and logs no error from a remote log.  Log
    monitoring is off without any notice. *)
Theorem unwatched_run_stays_local cfg env fuel tests duration max_runs soe w :
  truthy (target_logfiles cfg) = false \/ has_credentials cfg = false ->
  match stress_openstack cfg env fuel tests duration max_runs soe w with
  | Return _ w' | Raise _ w' => exists tr, events w' = events w ++ tr /\ Forall local_event tr
  | OutOfFuel => True
  end.
Proof.
  intros Hoff. revert w.
  change (emits local_event (stress_openstack cfg env fuel tests duration max_runs soe)).
  unfold stress_openstack.
  apply emits_bind; [now apply emits_local_prepare_logs|]. intros computes.
  apply emits_bind; [apply emits_local_spawn_all|]. intros _.
  apply emits_bind; [destruct soe; [apply emits_emit; exact I|apply emits_ret]|]. intros _.
  apply emits_bind; [apply emits_time_time|]. intros t.
  apply emits_bind; [now apply emits_local_polling_loop|]. intros had.
  apply emits_local_report.
Qed.

(** Log files to watch but no key, and a channel that would report an
    error: the run returns 0 without having sent anything. *)
Lemma unwatched_run_stays_local_witness :
  exists r w' tr,
    stress_openstack no_key_cfg log_error_env 5 echo_tests 2 None false fresh = Return r w' /\
    exit_status r = 0 /\
    events w' = events fresh ++ tr /\ Forall local_event tr.
Proof.
  assert (H : exists r w',
             stress_openstack no_key_cfg log_error_env 5 echo_tests 2 None false fresh
             = Return r w' /\ exit_status r = 0).
  { eexists _, _. split; [vm_compute; reflexivity|reflexivity]. }
  destruct H as (r & w' & Hrun & Hstatus).
  pose proof (unwatched_run_stays_local no_key_cfg log_error_env 5 echo_tests 2 None false
                fresh (or_intror eq_refl)) as H.
  rewrite Hrun in H. destruct H as (tr & Hev & Htr).
  exists r, w', tr. split; [exact Hrun|]. split; [exact Hstatus|]. split; assumption.
Defined.
